(** * wp_server2021: session supervisor and send loop of [index.js]

    A shallow embedding of the Express/Baileys server of [src/index.js].

    - The process-wide [activeSessions] is a JavaScript [Map]; it is modelled
      as an association list with the [Map] discipline (unique keys, insertion
      order kept, [set] on a present key overwrites in place), because
      [isDuplicateCreds] iterates it in insertion order.
    - The disk is the part of it the program touches: the folders
      [data/<sessionId>/] with their [creds.json] and [data.json], and the
      files multer stores under [uploads/].
    - [setTimeout]/[setImmediate] callbacks are pending timers of the world;
      they all have the shape [() => safeStartWhatsAppSession(id)].
    - An [async] function is a computation in a state-and-exception monad.
      What the outside decides (whether a send is delivered, whether the
      transport can be opened, whether a recursive removal succeeds, the
      clock) is an argument of the operation that observes it.
    - Console output, HTTP responses, socket calls and [delay] suspensions
      are recorded, in program order, in the [trace] of the world.
    - The HTML page and the static files are left out; [boot] is the server
      listening on an empty [data/] folder. *)

From Stdlib Require Import ZArith String Ascii List Bool Lia.
From stdpp Require Import base option list gmap strings pretty.

Local Open Scope Z_scope.

(** ** JavaScript [Map] with string keys *)

Module JsMap.
Section JsMap.
Context {V : Type}.

Fixpoint get (k : string) (m : list (string * V)) : option V :=
  match m with
  | [] => None
  | (k', v) :: r => if String.eqb k' k then Some v else get k r
  end.

Definition has (k : string) (m : list (string * V)) : bool :=
  match get k m with Some _ => true | None => false end.

Fixpoint set (k : string) (v : V) (m : list (string * V)) : list (string * V) :=
  match m with
  | [] => [(k, v)]
  | (k', v') :: r =>
      if String.eqb k' k then (k, v) :: r else (k', v') :: set k v r
  end.

Fixpoint delete (k : string) (m : list (string * V)) : list (string * V) :=
  match m with
  | [] => []
  | (k', v') :: r =>
      if String.eqb k' k then delete k r else (k', v') :: delete k r
  end.

Definition keys (m : list (string * V)) : list string := map fst m.
End JsMap.
End JsMap.

(** ** Data *)

(** The object written to and read from [data.json].  [delayTime] is [None]
    for the [null] that [JSON.stringify] writes for [NaN]. *)
Record SessionData := mkData {
  name : string;
  targetNumber : string;
  targetType : string;
  messages : list string;
  delayTime : option Z;
}.

(** Content of a [data.json]: text on which [JSON.parse] throws, or the
    object it yields. *)
Inductive DataFile :=
| Unparsable
| Parsed (d : SessionData).

Record SessionDir := mkDir {
  creds_json : option string;
  data_json : option DataFile;
}.

(** A socket made by [makeWASocket] together with what the listener
    attached to it in [startWhatsAppSession] has captured. *)
Record Socket := mkSocket {
  sock_id : nat;
  sessionId : string;
  data : SessionData;
}.

Record Output := { statusCode : option Z }.
Record Boom := { output : option Output }.
Record LastDisconnect := { error : option Boom }.
Record Update := mkUpdate {
  connection : option string;
  lastDisconnect : option LastDisconnect;
}.

Inductive SendOutcome := Delivered | DeliveryFails.

Inductive Error :=
| ENOENT
| SyntaxError
| TypeError
| EPERM
| TransportError
| DeliveryError.

Inductive Body :=
| Text (s : string)
| Ids (l : list string).

Inductive Effect :=
| Respond (status : Z) (body : Body)
| Emit (sock : nat) (event : string)
| SendMessageCall (sock : nat) (jid text : string)
| Delay (ms : Z)
| LogConnected (id : string)
| LogSent (index : nat) (jid text : string)
| ErrSending (index : nat) (jid : string) (err : Error)
| LogInvalidCredentials (id : string)
| WarnRemoveFailed (id : string)
| LogClosedRestart (id : string)
| WarnCleanupFailed (id : string)
| ErrInSession (id : string) (err : Error)
| ErrFailedToStart (id : string) (err : Error)
| ErrProcessing (err : Error).

(** A pending [setTimeout(() => safeStartWhatsAppSession(id), ms)];
    [setImmediate] is the same with no delay. *)
Record Timer := mkTimer {
  timer_ms : Z;
  timer_session : string;
}.

(** A send loop of the ["open"] branch suspended in [sendMessage]; [loop_i]
    is the value the loop variable [i] has when the loop condition is
    evaluated next. *)
Record LoopTask := mkLoop {
  loop_socket : Socket;
  loop_jid : string;
  loop_i : nat;
}.

Record World := mkWorld {
  activeSessions : list (string * Socket);
  sockets : list Socket;
  dataFs : gmap string SessionDir;
  uploads : gmap string string;
  timers : list Timer;
  loops : list LoopTask;
  trace : list Effect;
}.

Definition with_activeSessions (f : list (string * Socket) -> list (string * Socket)) (w : World) : World :=
  mkWorld (f (activeSessions w)) (sockets w) (dataFs w) (uploads w) (timers w) (loops w) (trace w).
Definition with_sockets (f : list Socket -> list Socket) (w : World) : World :=
  mkWorld (activeSessions w) (f (sockets w)) (dataFs w) (uploads w) (timers w) (loops w) (trace w).
Definition with_dataFs (f : gmap string SessionDir -> gmap string SessionDir) (w : World) : World :=
  mkWorld (activeSessions w) (sockets w) (f (dataFs w)) (uploads w) (timers w) (loops w) (trace w).
Definition with_uploads (f : gmap string string -> gmap string string) (w : World) : World :=
  mkWorld (activeSessions w) (sockets w) (dataFs w) (f (uploads w)) (timers w) (loops w) (trace w).
Definition with_timers (f : list Timer -> list Timer) (w : World) : World :=
  mkWorld (activeSessions w) (sockets w) (dataFs w) (uploads w) (f (timers w)) (loops w) (trace w).
Definition with_loops (f : list LoopTask -> list LoopTask) (w : World) : World :=
  mkWorld (activeSessions w) (sockets w) (dataFs w) (uploads w) (timers w) (f (loops w)) (trace w).
Definition with_trace (f : list Effect -> list Effect) (w : World) : World :=
  mkWorld (activeSessions w) (sockets w) (dataFs w) (uploads w) (timers w) (loops w) (f (trace w)).

(** ** The monad of [async] functions *)

Inductive Completion (A : Type) :=
| Normal (a : A)
| Throw (e : Error).
Arguments Normal {A} a.
Arguments Throw {A} e.

Definition JS (A : Type) : Type := World -> Completion A * World.

Definition ret {A} (a : A) : JS A := fun w => (Normal a, w).
Definition throw {A} (e : Error) : JS A := fun w => (Throw e, w).
Definition bind {A B} (c : JS A) (k : A -> JS B) : JS B :=
  fun w =>
    match c w with
    | (Normal a, w') => k a w'
    | (Throw e, w') => (Throw e, w')
    end.
Definition try_catch {A} (c : JS A) (handler : Error -> JS A) : JS A :=
  fun w =>
    match c w with
    | (Normal a, w') => (Normal a, w')
    | (Throw e, w') => handler e w'
    end.
Definition gets {A} (f : World -> A) : JS A := fun w => (Normal (f w), w).
Definition modify (f : World -> World) : JS unit := fun w => (Normal tt, f w).
Definition effect (e : Effect) : JS unit := modify (with_trace (fun t => t ++ [e])).

Notation "'let!' x ':=' c 'in' k" := (bind c (fun x => k))
  (at level 10, x name, c at level 100, k at level 200).
Notation "c >> k" := (bind c (fun _ => k))
  (at level 100, k at level 200, right associativity).


(** ** The disk *)

(** [fs.readFile(p, 'utf-8')] on a file under [uploads/]. *)
Definition readUpload (p : string) : JS string :=
  fun w =>
    match uploads w !! p with
    | Some c => (Normal c, w)
    | None => (Throw ENOENT, w)
    end.

(** [fs.readFile(path.join(dataDir, id, 'creds.json'), 'utf-8')]. *)
Definition readCreds (id : string) : JS string :=
  fun w =>
    match dataFs w !! id ≫= creds_json with
    | Some c => (Normal c, w)
    | None => (Throw ENOENT, w)
    end.

(** [JSON.parse(await fs.readFile(path.join(sessionPath, 'data.json'), 'utf-8'))]. *)
Definition readData (id : string) : JS SessionData :=
  fun w =>
    match dataFs w !! id ≫= data_json with
    | Some (Parsed d) => (Normal d, w)
    | Some Unparsable => (Throw SyntaxError, w)
    | None => (Throw ENOENT, w)
    end.

Definition unlink (p : string) : JS unit :=
  fun w =>
    match uploads w !! p with
    | Some _ => (Normal tt, with_uploads (base.delete p) w)
    | None => (Throw ENOENT, w)
    end.

(** [fs.mkdir(sessionPath, { recursive: true })]. *)
Definition mkdir (id : string) : JS unit :=
  modify (with_dataFs (fun fs =>
    match fs !! id with
    | Some _ => fs
    | None => <[id := mkDir None None]> fs
    end)).

(** [fs.rm] and [fs.rmdir] with [recursive: true] on a session folder;
    [ok] tells whether the operating system carries the removal out. *)
Definition rm_recursive (id : string) (ok : bool) : JS unit :=
  if ok then modify (with_dataFs (base.delete id)) else throw EPERM.

Definition write_in_dir (id : string) (f : SessionDir -> SessionDir) : JS unit :=
  fun w =>
    match dataFs w !! id with
    | Some d => (Normal tt, with_dataFs (<[id := f d]>) w)
    | None => (Throw ENOENT, w)
    end.

(** [fs.copyFile(credsFilePath, path.join(sessionPath, 'creds.json'))]. *)
Definition copyFile_creds (src id : string) : JS unit :=
  let! c := readUpload src in
  write_in_dir id (fun d => mkDir (Some c) (data_json d)).

(** [fs.writeFile(path.join(sessionPath, 'data.json'), JSON.stringify(data, null, 2))]. *)
Definition writeFile_data (id : string) (d : SessionData) : JS unit :=
  write_in_dir id (fun dir => mkDir (creds_json dir) (Some (Parsed d))).

Definition setTimeout (id : string) (ms : Z) : JS unit :=
  modify (with_timers (fun l => l ++ [mkTimer ms id])).

Definition setImmediate (id : string) : JS unit := setTimeout id 0.

(** ** Strings *)

Definition LF : ascii := ascii_of_nat 10.

(** [s.split('\n')]. *)
Fixpoint split_lines (s : string) : list string :=
  match s with
  | EmptyString => [EmptyString]
  | String c r =>
      if Ascii.eqb c LF then EmptyString :: split_lines r
      else match split_lines r with
           | h :: t => String c h :: t
           | [] => [String c EmptyString]
           end
  end.

(** [.filter(Boolean)] on strings: the empty string is the only falsy one. *)
Definition filter_Boolean (l : list string) : list string :=
  List.filter (fun s => negb (String.eqb s "")) l.

Definition is_space (c : ascii) : bool :=
  let n := nat_of_ascii c in
  ((9 <=? n) && (n <=? 13))%nat || (n =? 32)%nat.

Definition digit_of (c : ascii) : option Z :=
  let n := Z.of_nat (nat_of_ascii c) in
  if (48 <=? n) && (n <=? 57) then Some (n - 48) else None.

Fixpoint skip_space (s : string) : string :=
  match s with
  | String c r => if is_space c then skip_space r else s
  | EmptyString => s
  end.

Fixpoint digits (acc : option Z) (s : string) : option Z :=
  match s with
  | String c r =>
      match digit_of c with
      | Some d => digits (Some (10 * default 0 acc + d)) r
      | None => acc
      end
  | EmptyString => acc
  end.

(** [parseInt(s, 10)]; [None] is [NaN]. *)
Definition parseInt (s : string) : option Z :=
  match skip_space s with
  | String "-"%char r => Z.opp <$> digits None r
  | String "+"%char r => digits None r
  | r => digits None r
  end.

(** A template literal substitutes ["undefined"] for [undefined]. *)
Definition template (v : option string) : string :=
  match v with Some s => s | None => "undefined" end.

(** ** The program *)

Record Request := mkRequest {
  body_name : string;
  body_targetNumber : string;
  body_targetType : string;
  body_delayTime : string;
  files_creds : option string;
  files_messageFile : option string;
}.

(** [req.files[field][0].path]: a [TypeError] when the field was not uploaded. *)
Definition file_path (f : option string) : JS string :=
  match f with
  | Some p => ret p
  | None => throw TypeError
  end.

Definition createSessionFolder (sessionId : string) : JS string :=
  try_catch (mkdir sessionId) (fun _ => ret tt) >>
  ret sessionId.

(** The [for ... of activeSessions] of [isDuplicateCreds]. *)
Fixpoint scan_sessions (credsHash : string) (entries : list (string * Socket)) : JS bool :=
  match entries with
  | [] => ret false
  | (sessionId, _) :: rest =>
      let! stored := readCreds sessionId in
      if String.eqb stored credsHash then ret true
      else scan_sessions credsHash rest
  end.

Definition isDuplicateCreds (credsFilePath : string) : JS bool :=
  let! credsHash := readUpload credsFilePath in
  let! entries := gets activeSessions in
  scan_sessions credsHash entries.

(** [app.post('/stop-session/:sessionId')]. *)
Definition stop_session (sessionId : string) (rmdir_ok : bool) : JS unit :=
  let! present := gets (fun w => JsMap.has sessionId (activeSessions w)) in
  if present then
    let! socket := gets (fun w => JsMap.get sessionId (activeSessions w)) in
    match socket with
    | Some s => effect (Emit (sock_id s) "close")
    | None => throw TypeError
    end >>
    modify (with_activeSessions (JsMap.delete sessionId)) >>
    try_catch (rm_recursive sessionId rmdir_ok)
              (fun _ => effect (WarnCleanupFailed sessionId)) >>
    effect (Respond 200 (Text ("Session " +:+ sessionId +:+ " stopped.")))
  else
    effect (Respond 404 (Text ("Session " +:+ sessionId +:+ " not found."))).

(** [app.get('/sessions')]. *)
Definition get_sessions : JS unit :=
  let! m := gets activeSessions in
  effect (Respond 200 (Ids (JsMap.keys m))).

(** [app.post('/send-message')]; [now] is what [Date.now()] returns. *)
Definition send_message (req : Request) (now : Z) : JS unit :=
  try_catch
    (let! messageFilePath := file_path (files_messageFile req) in
     let! credsFilePath := file_path (files_creds req) in
     let! duplicate := isDuplicateCreds credsFilePath in
     if duplicate then
       unlink credsFilePath >>
       effect (Respond 400 (Text "This creds.json is already in use. Please provide a unique credentials file."))
     else
       let sessionId := "session_" +:+ pretty now in
       let! sessionPath := createSessionFolder sessionId in
       copyFile_creds credsFilePath sessionPath >>
       let! text := readUpload messageFilePath in
       let messages := filter_Boolean (split_lines text) in
       let data := mkData (body_name req) (body_targetNumber req) (body_targetType req)
                          messages (parseInt (body_delayTime req)) in
       writeFile_data sessionPath data >>
       setImmediate sessionId >>
       effect (Respond 200 (Text ("Session " +:+ sessionId +:+ " started."))))
    (fun error =>
       effect (ErrProcessing error) >>
       effect (Respond 500 (Text "Failed to process the request."))).

(** [startWhatsAppSession]; [transport_ok] tells whether
    [fetchLatestBaileysVersion], [useMultiFileAuthState] and [makeWASocket]
    all return.  The two [socket.ev.on] registrations are the captured
    fields of the [Socket]. *)
Definition startWhatsAppSession (sessionId : string) (transport_ok : bool) : JS unit :=
  try_catch
    (let! data := readData sessionId in
     (if transport_ok then ret tt else throw TransportError) >>
     let! n := gets (fun w => length (sockets w)) in
     let socket := mkSocket n sessionId data in
     modify (with_sockets (fun l => l ++ [socket])) >>
     modify (with_activeSessions (JsMap.set sessionId socket)))
    (fun error =>
       effect (ErrInSession sessionId error) >>
       setTimeout sessionId 60000).

Definition safeStartWhatsAppSession (sessionId : string) (transport_ok : bool) : JS unit :=
  try_catch
    (startWhatsAppSession sessionId transport_ok)
    (fun err =>
       effect (ErrFailedToStart sessionId err) >>
       setTimeout sessionId 10000).

(** [socket.sendMessage(targetJid, { text })]. *)
Definition socket_sendMessage (socket : Socket) (targetJid text : string)
    (outcome : SendOutcome) : JS unit :=
  effect (SendMessageCall (sock_id socket) targetJid text) >>
  match outcome with
  | Delivered => ret tt
  | DeliveryFails => throw DeliveryError
  end.

(** [delay(delayTime * 1000)]: [null * 1000] is [0]. *)
Definition delay_ms (delayTime : option Z) : Z :=
  match delayTime with
  | Some d => d * 1000
  | None => 0
  end.

Definition sendMessage (socket : Socket) (targetJid name : string)
    (message : option string) (delayTime : option Z) (index : nat)
    (outcome : SendOutcome) : JS unit :=
  let text := name +:+ ": " +:+ template message in
  try_catch
    (socket_sendMessage socket targetJid text outcome >>
     effect (LogSent (index + 1) targetJid text) >>
     effect (Delay (delay_ms delayTime)))
    (fun err =>
       effect (ErrSending (index + 1) targetJid err) >>
       effect (Delay 5000)).

Definition targetJid_of (targetType targetNumber : string) : string :=
  if String.eqb targetType "group" then targetNumber +:+ "@g.us"
  else targetNumber +:+ "@s.whatsapp.net".

(** The loop condition [messages.length && activeSessions.has(sessionId)]. *)
Definition loop_condition (socket : Socket) (w : World) : bool :=
  negb (length (messages (data socket)) =? 0)%nat
  && JsMap.has (sessionId socket) (activeSessions w).
Arguments loop_condition : simpl never.

(** One turn of
    [for (let i = 0; messages.length && activeSessions.has(sessionId); i++)]:
    the condition, then the body up to the end of [sendMessage], then [i++].
    [None] when the loop is left. *)
Definition loop_turn (t : LoopTask) (outcome : SendOutcome) : JS (option LoopTask) :=
  let socket := loop_socket t in
  let d := data socket in
  let i := loop_i t in
  let! go := gets (loop_condition socket) in
  if go then
    let message := messages d !! i in
    sendMessage socket (loop_jid t) (name d) message (delayTime d) i outcome >>
    ret (Some (mkLoop socket (loop_jid t) (S i)))
  else ret None.

(** Optional chaining [o?.f]. *)
Definition chain {A B} (o : option A) (f : A -> option B) : option B :=
  match o with
  | Some a => f a
  | None => None
  end.

(** [lastDisconnect?.error?.output?.statusCode === 401]. *)
Definition isAuthError (lastDisconnect : option LastDisconnect) : bool :=
  match chain (chain (chain lastDisconnect error) output) statusCode with
  | Some code => code =? 401
  | None => false
  end.

Definition handleSessionClosure (sessionId : string)
    (lastDisconnect : option LastDisconnect) (rm_ok : bool) : JS unit :=
  if isAuthError lastDisconnect then
    effect (LogInvalidCredentials sessionId) >>
    try_catch (rm_recursive sessionId rm_ok)
              (fun _ => effect (WarnRemoveFailed sessionId))
  else
    effect (LogClosedRestart sessionId) >>
    setTimeout sessionId 60000.

Definition connection_is (u : Update) (s : string) : bool :=
  match connection u with
  | Some c => String.eqb c s
  | None => false
  end.

(** The ["connection.update"] listener of [socket].  On ["open"] the loop
    runs its first turn at once; while it is suspended in [sendMessage] it
    waits among the [loops] of the world. *)
Definition on_connection_update (socket : Socket) (update : Update)
    (rm_ok : bool) (outcome : SendOutcome) : JS unit :=
  let d := data socket in
  (if connection_is update "open" then
     effect (LogConnected (sessionId socket)) >>
     let targetJid := targetJid_of (targetType d) (targetNumber d) in
     let! t := loop_turn (mkLoop socket targetJid 0) outcome in
     match t with
     | Some t' => modify (with_loops (fun l => l ++ [t']))
     | None => ret tt
     end
   else ret tt) >>
  (if connection_is update "close" then
     handleSessionClosure (sessionId socket) (lastDisconnect update) rm_ok
   else ret tt).

(** ** The event loop *)

(** What the event loop can run next: an HTTP request (multer has stored
    its files by then), an event on one of the sockets made so far, a
    suspended send loop coming back from its [delay], or a pending timer. *)
Inductive Op :=
| Upload (path content : string)
| PostSendMessage (req : Request) (now : Z)
| PostStopSession (sessionId : string) (rmdir_ok : bool)
| GetSessions
| ConnectionUpdate (k : nat) (update : Update) (rm_ok : bool) (outcome : SendOutcome)
| ResumeLoop (k : nat) (outcome : SendOutcome)
| FireTimer (k : nat) (transport_ok : bool).

Definition resume_loop (k : nat) (outcome : SendOutcome) (w : World) : World :=
  match loops w !! k with
  | Some t =>
      match loop_turn t outcome (with_loops (base.delete k) w) with
      | (Normal (Some t'), w') => with_loops (fun l => l ++ [t']) w'
      | (_, w') => w'
      end
  | None => w
  end.

Definition fire_timer (k : nat) (transport_ok : bool) (w : World) : World :=
  match timers w !! k with
  | Some t =>
      snd (safeStartWhatsAppSession (timer_session t) transport_ok
             (with_timers (base.delete k) w))
  | None => w
  end.

Definition exec (o : Op) (w : World) : World :=
  match o with
  | Upload p c => with_uploads (<[p := c]>) w
  | PostSendMessage req now => snd (send_message req now w)
  | PostStopSession id ok => snd (stop_session id ok w)
  | GetSessions => snd (get_sessions w)
  | ConnectionUpdate k u rm_ok outcome =>
      match sockets w !! k with
      | Some s => snd (on_connection_update s u rm_ok outcome w)
      | None => w
      end
  | ResumeLoop k outcome => resume_loop k outcome w
  | FireTimer k ok => fire_timer k ok w
  end.

Definition run (ops : list Op) (w : World) : World :=
  fold_left (fun w o => exec o w) ops w.

(** The process right after [app.listen] on an empty [data/] folder. *)
Definition boot : World := mkWorld [] [] ∅ ∅ [] [] [].

Definition closed_with (code : Z) : Update :=
  mkUpdate (Some "close")
    (Some {| error := Some {| output := Some {| statusCode := Some code |} |} |}).

Definition opened : Update := mkUpdate (Some "open") None.

(** ** Vocabulary of the statements *)

(** What [sendMessage] leaves in the trace. *)
Definition send_effects (socket : Socket) (targetJid name : string)
    (message : option string) (delayTime : option Z) (index : nat)
    (outcome : SendOutcome) : list Effect :=
  let text := name +:+ ": " +:+ template message in
  match outcome with
  | Delivered =>
      [SendMessageCall (sock_id socket) targetJid text;
       LogSent (index + 1) targetJid text;
       Delay (delay_ms delayTime)]
  | DeliveryFails =>
      [SendMessageCall (sock_id socket) targetJid text;
       ErrSending (index + 1) targetJid DeliveryError;
       Delay 5000]
  end.

(** What one turn of the send loop leaves in the trace. *)
Definition turn_effects (t : LoopTask) (outcome : SendOutcome) : list Effect :=
  let d := data (loop_socket t) in
  send_effects (loop_socket t) (loop_jid t) (name d) (messages d !! loop_i t)
    (delayTime d) (loop_i t) outcome.

(** The loop after [i++]. *)
Definition next_turn (t : LoopTask) : LoopTask :=
  mkLoop (loop_socket t) (loop_jid t) (S (loop_i t)).

(** The effects of consecutive turns of a loop, from the turn of [t] on. *)
Fixpoint turns_effects (t : LoopTask) (outcomes : list SendOutcome) : list Effect :=
  match outcomes with
  | [] => []
  | o :: r => turn_effects t o ++ turns_effects (next_turn t) r
  end.

(** The status code a ["close"] update carries, if any. *)
Definition close_code (ld : option LastDisconnect) : option Z :=
  chain (chain (chain ld error) output) statusCode.

(** Computations that leave [activeSessions] as they found it. *)
Definition keeps_sessions {A} (c : JS A) : Prop :=
  forall w, activeSessions (snd (c w)) = activeSessions w.

Definition not_found_body (id : string) : Body :=
  Text ("Session " +:+ id +:+ " not found.").

Definition stopped_body (id : string) : Body :=
  Text ("Session " +:+ id +:+ " stopped.").

Definition duplicate_body : Body :=
  Text "This creds.json is already in use. Please provide a unique credentials file.".

(** ** Scenarios *)

(** A registered session to a single contact. *)
Definition contact_socket : Socket :=
  mkSocket 0 "S2" (mkData "ann" "123" "single" ["a"; "b"] (Some 1)).

Definition contact_world : World :=
  mkWorld [("S2", contact_socket)] [contact_socket] ∅ ∅ [] [] [].

(** A session started through the HTTP surface: two uploads, the start
    request at clock value 1, and the [setImmediate] callback. *)
Definition request_A : Request :=
  mkRequest "ann" "123" "single" "1" (Some "uploads/credsA") (Some "uploads/msgsA").

Definition world_A : World :=
  run [Upload "uploads/credsA" "A";
       Upload "uploads/msgsA" ("a" +:+ String LF "b");
       PostSendMessage request_A 1;
       FireTimer 0 true] boot.

(** The socket that start has made. *)
Definition socket_A : Socket :=
  mkSocket 0 "session_1" (mkData "ann" "123" "single" ["a"; "b"] (Some 1)).

(** The session comes online and its first message is delivered. *)
Definition world_A_open : World :=
  exec (ConnectionUpdate 0 opened true Delivered) world_A.

Definition loop_A : LoopTask := mkLoop socket_A "123@s.whatsapp.net" 1.

(** The session is closed for a reason other than 401 (428, connection
    closed): a restart is pending. *)
Definition world_A_closed : World :=
  exec (ConnectionUpdate 0 (closed_with 428) true Delivered) world_A.

(** A start request with credentials no session uses. *)
Definition request_C : Request :=
  mkRequest "cy" "789" "single" "3" (Some "uploads/credsC") (Some "uploads/msgsA").

(** A second session started through the HTTP surface; the first is then
    closed with status code 401, which removes its folder. *)
Definition request_B : Request :=
  mkRequest "bea" "456" "group" "2" (Some "uploads/credsB") (Some "uploads/msgsB").

Definition world_AB : World :=
  run [Upload "uploads/credsB" "B";
       Upload "uploads/msgsB" "hello";
       PostSendMessage request_B 2;
       FireTimer 0 true;
       ConnectionUpdate 0 (closed_with 401) true Delivered] world_A.

(** ** Start-up scan *)

(** The console lines of [autoStartSessions]. *)
Inductive BootLog :=
| AutoStarting (folder : string)
| WarnAutoStart (err : Error).

(** The [for ... of sessionFolders] of [autoStartSessions] inside its [try].
    An entry is a name [fs.readdir(dataDir)] lists with what
    [fs.lstat(...).isDirectory()] answers for it, [None] when [lstat]
    throws; the throw leaves the loop for the [catch], which warns.  The
    result is what the function has written to the console. *)
Fixpoint autoStart_scan (entries : list (string * option bool)) : JS (list BootLog) :=
  match entries with
  | [] => ret []
  | (folder, None) :: _ => ret [WarnAutoStart ENOENT]
  | (folder, Some isDir) :: rest =>
      if isDir then
        setImmediate folder >>
        let! lines := autoStart_scan rest in
        ret (AutoStarting folder :: lines)
      else autoStart_scan rest
  end.

(** [autoStartSessions]; the listing is [None] when [fs.readdir] throws. *)
Definition autoStartSessions (listing : option (list (string * option bool)))
    : JS (list BootLog) :=
  match listing with
  | Some entries => autoStart_scan entries
  | None => ret [WarnAutoStart ENOENT]
  end.

(** ** Vocabulary of the further statements *)

(** The id [`session_${Date.now()}`] of a start request. *)
Definition session_id (now : Z) : string := "session_" +:+ pretty now.
Arguments session_id : simpl never.

(** The record [/send-message] writes to [data.json]. *)
Definition request_data (req : Request) (text : string) : SessionData :=
  mkData (body_name req) (body_targetNumber req) (body_targetType req)
    (filter_Boolean (split_lines text)) (parseInt (body_delayTime req)).

(** Lines put together with a line feed between them. *)
Fixpoint join_lines (lines : list string) : string :=
  match lines with
  | [] => ""
  | [l] => l
  | l :: rest => l +:+ String LF (join_lines rest)
  end.

(** A string without line feed. *)
Fixpoint one_line (s : string) : bool :=
  match s with
  | EmptyString => true
  | String c r => negb (Ascii.eqb c LF) && one_line r
  end.

(** The calls of [socket.sendMessage] in a trace, in order: socket,
    address, text. *)
Fixpoint sent_calls (tr : list Effect) : list (nat * string * string) :=
  match tr with
  | [] => []
  | SendMessageCall sock jid text :: r => (sock, jid, text) :: sent_calls r
  | _ :: r => sent_calls r
  end.

(** The status codes of the responses in a trace, in order. *)
Fixpoint responses (tr : list Effect) : list Z :=
  match tr with
  | [] => []
  | Respond status _ :: r => status :: responses r
  | _ :: r => responses r
  end.

(** What a start request, a closure or a send never changes. *)
Definition core (w : World) : list (string * Socket) * list Socket * list LoopTask :=
  (activeSessions w, sockets w, loops w).

Definition keeps_core {A} (c : JS A) : Prop :=
  forall w, core (snd (c w)) = core w.

(** Sockets are numbered in the order they are made; a registered socket and
    the socket of a suspended loop are sockets the server has made, and a
    socket is registered under the id its listener has captured. *)
Definition consistent (w : World) : Prop :=
  (forall k s, sockets w !! k = Some s -> sock_id s = k)
  /\ (forall id s, JsMap.get id (activeSessions w) = Some s ->
        sessionId s = id /\ sockets w !! sock_id s = Some s)
  /\ Forall (fun t => sockets w !! sock_id (loop_socket t) = Some (loop_socket t))
       (loops w).

(** The names a listing reports as directories. *)
Definition directories (entries : list (string * option bool)) : list string :=
  map fst (List.filter (fun e => match snd e with Some true => true | _ => false end)
             entries).

(** A listing all of whose [lstat] calls return. *)
Definition all_stat (entries : list (string * option bool)) : Prop :=
  Forall (fun e => snd e <> None) entries.

(** ** Further scenarios *)

(** The uploads of a second start request have arrived while [session_1]
    is registered. *)
Definition world_B_uploaded : World :=
  run [Upload "uploads/credsB" "B"; Upload "uploads/msgsB" "hello"] world_A.


(** * Properties *)

(** ** [JsMap] behaves like a [Map] *)

Module JsMapFacts.
Section Facts.
Context {V : Type}.
Implicit Types (m : list (string * V)) (k : string) (v : V).

Lemma get_set_eq m k v : JsMap.get k (JsMap.set k v m) = Some v.
Proof.
  induction m as [|[k' v'] r IH]; simpl.
  - now rewrite String.eqb_refl.
  - destruct (String.eqb k' k) eqn:E; simpl.
    + now rewrite String.eqb_refl.
    + now rewrite E.
Qed.

Lemma get_set_ne m k k' v : k <> k' -> JsMap.get k' (JsMap.set k v m) = JsMap.get k' m.
Proof.
  intros Hne. induction m as [|[k0 v0] r IH]; simpl.
  - apply String.eqb_neq in Hne. now rewrite Hne.
  - destruct (String.eqb k0 k) eqn:E; simpl.
    + apply String.eqb_eq in E. subst k0.
      apply String.eqb_neq in Hne. now rewrite Hne.
    + now rewrite IH.
Qed.

Lemma get_delete_eq m k : JsMap.get k (JsMap.delete k m) = None.
Proof.
  induction m as [|[k' v'] r IH]; simpl; [reflexivity|].
  destruct (String.eqb k' k) eqn:E; simpl; [assumption|].
  now rewrite E.
Qed.

Lemma get_delete_ne m k k' : k <> k' -> JsMap.get k' (JsMap.delete k m) = JsMap.get k' m.
Proof.
  intros Hne. induction m as [|[k0 v0] r IH]; simpl; [reflexivity|].
  destruct (String.eqb k0 k) eqn:E; simpl.
  - apply String.eqb_eq in E. subst k0.
    apply String.eqb_neq in Hne. now rewrite Hne.
  - now rewrite IH.
Qed.

Lemma has_delete m k : JsMap.has k (JsMap.delete k m) = false.
Proof. unfold JsMap.has. now rewrite get_delete_eq. Qed.

Lemma has_set m k v : JsMap.has k (JsMap.set k v m) = true.
Proof. unfold JsMap.has. now rewrite get_set_eq. Qed.

Lemma has_get m k : JsMap.has k m = true <-> exists v, JsMap.get k m = Some v.
Proof.
  unfold JsMap.has. destruct (JsMap.get k m) as [v|].
  - split; [eauto | reflexivity].
  - split; [discriminate | intros [v Hv]; discriminate].
Qed.

Lemma delete_absent m k : JsMap.has k m = false -> JsMap.delete k m = m.
Proof.
  unfold JsMap.has. induction m as [|[k' v'] r IH]; simpl; [reflexivity|].
  destruct (String.eqb k' k); [discriminate|].
  intros H. now rewrite IH.
Qed.

Lemma keys_delete_subset m k x : x ∈ JsMap.keys (JsMap.delete k m) -> x ∈ JsMap.keys m.
Proof.
  unfold JsMap.keys. induction m as [|[k' v'] r IH]; simpl; [tauto|].
  destruct (String.eqb k' k); simpl; rewrite ?elem_of_cons; intuition.
Qed.

Lemma keys_set_subset m k v x :
  x ∈ JsMap.keys (JsMap.set k v m) -> x = k \/ x ∈ JsMap.keys m.
Proof.
  unfold JsMap.keys. induction m as [|[k' v'] r IH]; simpl.
  - rewrite elem_of_cons. intros [->|H]; [now left | now right].
  - destruct (String.eqb k' k) eqn:E; simpl; rewrite !elem_of_cons.
    + intros [->|H]; [now left | right; now right].
    + intros [->|H]; [right; now left |].
      destruct (IH H) as [->|H']; [now left | right; now right].
Qed.

Lemma NoDup_keys_delete m k : NoDup (JsMap.keys m) -> NoDup (JsMap.keys (JsMap.delete k m)).
Proof.
  induction m as [|[k' v'] r IH]; simpl; [trivial|].
  rewrite NoDup_cons. intros [Hin Hnd].
  destruct (String.eqb k' k); simpl; [auto|].
  apply NoDup_cons. split; [|auto].
  intros H. apply Hin. eapply keys_delete_subset, H.
Qed.

Lemma NoDup_keys_set m k v : NoDup (JsMap.keys m) -> NoDup (JsMap.keys (JsMap.set k v m)).
Proof.
  induction m as [|[k' v'] r IH]; simpl.
  - intros _. apply NoDup_singleton.
  - rewrite NoDup_cons. intros [Hin Hnd].
    destruct (String.eqb k' k) eqn:E; simpl.
    + apply String.eqb_eq in E. subst k'.
      apply NoDup_cons. split; assumption.
    + apply NoDup_cons. split; [|auto].
      intros H. apply keys_set_subset in H as [->|H]; [|contradiction].
      now rewrite String.eqb_refl in E.
Qed.

(** [set] on a present key changes no key and no position. *)
Lemma keys_set_present m k v : JsMap.has k m = true -> JsMap.keys (JsMap.set k v m) = JsMap.keys m.
Proof.
  unfold JsMap.has. induction m as [|[k' v'] r IH]; simpl; [discriminate|].
  destruct (String.eqb k' k) eqn:E; simpl.
  - apply String.eqb_eq in E. now subst.
  - intros H. now rewrite (IH H).
Qed.
End Facts.
End JsMapFacts.

(** Unfolding of the monad's combinators. *)
Ltac js_unfold :=
  repeat (progress (unfold bind, try_catch, gets, modify, effect, ret, throw,
    with_trace, with_timers, with_loops, with_dataFs, with_uploads,
    with_activeSessions, with_sockets in *; simpl in * )).

(** ** One turn of the send loop *)

Lemma loop_condition_frame (s : Socket) (w1 w2 : World) :
  activeSessions w1 = activeSessions w2 ->
  loop_condition s w1 = loop_condition s w2.
Proof. unfold loop_condition. now intros ->. Qed.

Lemma sendMessage_spec socket targetJid name message delayTime index outcome (w : World) :
  sendMessage socket targetJid name message delayTime index outcome w
  = (Normal tt,
     with_trace (fun t => t ++ send_effects socket targetJid name message
                                 delayTime index outcome) w).
Proof.
  unfold sendMessage, socket_sendMessage, send_effects.
  destruct outcome; js_unfold; rewrite <- !app_assoc; reflexivity.
Qed.

Lemma loop_turn_go (t : LoopTask) (outcome : SendOutcome) (w : World) :
  loop_condition (loop_socket t) w = true ->
  loop_turn t outcome w
  = (Normal (Some (next_turn t)),
     with_trace (fun tr => tr ++ turn_effects t outcome) w).
Proof.
  intros Hc. unfold loop_turn, bind at 1, gets. rewrite Hc.
  unfold bind. rewrite sendMessage_spec. reflexivity.
Qed.

Lemma loop_turn_leave (t : LoopTask) (outcome : SendOutcome) (w : World) :
  loop_condition (loop_socket t) w = false ->
  loop_turn t outcome w = (Normal None, w).
Proof.
  intros Hc. unfold loop_turn, bind, gets. now rewrite Hc.
Qed.

(** ** Address formation *)

(** What an ["open"] event does when the loop condition holds: it logs,
    resolves the address, makes the first send and leaves the loop suspended
    with [i = 1]. *)
Lemma open_starts_loop (s : Socket) (rm_ok : bool) (outcome : SendOutcome) (w : World) :
  loop_condition s w = true ->
  exists w',
    on_connection_update s opened rm_ok outcome w = (Normal tt, w')
    /\ loops w' = loops w ++
         [mkLoop s (targetJid_of (targetType (data s)) (targetNumber (data s))) 1]
    /\ activeSessions w' = activeSessions w
    /\ timers w' = timers w.
Proof.
  intros Hc. unfold on_connection_update, opened, connection_is. simpl.
  unfold bind at 1 2 3, effect, modify.
  rewrite loop_turn_go by (simpl; erewrite loop_condition_frame; [exact Hc | reflexivity]).
  simpl. eexists; repeat split; reflexivity.
Qed.

(** C9: the address a session's messages are sent to is [n@g.us] when the
    target type is ["group"] and [n@s.whatsapp.net] for every other target
    type; it is the address the loop started by an ["open"] event uses. *)
Theorem targetJid_formation (targetType n : string) :
  targetJid_of "group" n = n +:+ "@g.us"
  /\ (targetType <> "group" -> targetJid_of targetType n = n +:+ "@s.whatsapp.net")
  /\ (forall (d : SessionData) (id : string) (k : nat) (w : World) rm_ok outcome,
        let s := mkSocket k id (mkData (name d) n targetType (messages d) (delayTime d)) in
        loop_condition s w = true ->
        loop_jid <$> last (loops (snd (on_connection_update s opened rm_ok outcome w)))
        = Some (targetJid_of targetType n)).
Proof.
  split; [reflexivity|]. split.
  - intros Hne. unfold targetJid_of.
    apply String.eqb_neq in Hne. now rewrite Hne.
  - intros d id k w rm_ok outcome s Hc.
    destruct (open_starts_loop s rm_ok outcome w Hc) as (w' & -> & Hl & _).
    simpl. rewrite Hl, last_snoc. reflexivity.
Qed.

Lemma targetJid_formation_witness :
  targetJid_of "single" "123" = "123@s.whatsapp.net"
  /\ loop_jid <$> last (loops (snd (on_connection_update contact_socket opened true
                                      Delivered contact_world)))
     = Some "123@s.whatsapp.net".
Proof.
  destruct (targetJid_formation "single" "123") as (_ & Hother & Hloop).
  split.
  - apply Hother. discriminate.
  - apply (Hloop (data contact_socket) "S2" 0%nat contact_world true Delivered).
    reflexivity.
Defined.

(** ** Stopping a session *)

Lemma stop_session_absent (w : World) (id : string) (rmdir_ok : bool) :
  JsMap.has id (activeSessions w) = false ->
  stop_session id rmdir_ok w
  = (Normal tt, with_trace (fun t => t ++ [Respond 404 (not_found_body id)]) w).
Proof.
  intros H. unfold stop_session. js_unfold. now rewrite H.
Qed.

Lemma stop_session_present (w : World) (id : string) (s : Socket) (rmdir_ok : bool) :
  JsMap.get id (activeSessions w) = Some s ->
  stop_session id rmdir_ok w
  = (Normal tt,
     mkWorld (JsMap.delete id (activeSessions w)) (sockets w)
       (if rmdir_ok then base.delete id (dataFs w) else dataFs w)
       (uploads w) (timers w) (loops w)
       (trace w ++ [Emit (sock_id s) "close"]
                ++ (if rmdir_ok then [] else [WarnCleanupFailed id])
                ++ [Respond 200 (stopped_body id)])).
Proof.
  intros H. unfold stop_session, rm_recursive, JsMap.has. js_unfold.
  rewrite !H. js_unfold.
  destruct rmdir_ok; js_unfold; rewrite <- ?app_assoc; reflexivity.
Qed.

(** C6: [stopSession(id)] answers 404 exactly when [id] is not registered;
    on a registered id it emits [close] on the handle, removes the id,
    removes the storage when the removal goes through, answers 200 also
    when the removal fails (the failure is only logged), and a second stop
    of the same id answers 404 and changes nothing else. *)
Theorem stop_session_contract (w : World) (id : string) (rmdir_ok : bool) :
  let w' := snd (stop_session id rmdir_ok w) in
  fst (stop_session id rmdir_ok w) = Normal tt
  /\ (JsMap.has id (activeSessions w) = false
      <-> trace w' = trace w ++ [Respond 404 (not_found_body id)])
  /\ (JsMap.has id (activeSessions w) = false ->
      w' = with_trace (fun t => t ++ [Respond 404 (not_found_body id)]) w)
  /\ (forall s, JsMap.get id (activeSessions w) = Some s ->
        activeSessions w' = JsMap.delete id (activeSessions w)
        /\ JsMap.has id (activeSessions w') = false
        /\ dataFs w' = (if rmdir_ok then base.delete id (dataFs w) else dataFs w)
        /\ trace w' = trace w ++ [Emit (sock_id s) "close"]
                        ++ (if rmdir_ok then [] else [WarnCleanupFailed id])
                        ++ [Respond 200 (stopped_body id)]
        /\ sockets w' = sockets w /\ uploads w' = uploads w
        /\ timers w' = timers w /\ loops w' = loops w
        /\ forall again_ok,
             stop_session id again_ok w'
             = (Normal tt, with_trace (fun t => t ++ [Respond 404 (not_found_body id)]) w')).
Proof.
  simpl. destruct (JsMap.get id (activeSessions w)) as [s|] eqn:Hget.
  - assert (Hhas : JsMap.has id (activeSessions w) = true)
      by (unfold JsMap.has; now rewrite Hget).
    rewrite (stop_session_present w id s rmdir_ok Hget). simpl.
    split; [reflexivity|]. split; [|split].
    + rewrite Hhas. split; [discriminate|].
      intros H. apply app_inv_head in H.
      destruct rmdir_ok; simpl in H; discriminate.
    + rewrite Hhas. discriminate.
    + intros s' Hs'. injection Hs' as <-.
      repeat split; try reflexivity.
      * apply JsMapFacts.has_delete.
      * intros again_ok. apply stop_session_absent. simpl.
        apply JsMapFacts.has_delete.
  - assert (Hhas : JsMap.has id (activeSessions w) = false)
      by (unfold JsMap.has; now rewrite Hget).
    rewrite (stop_session_absent w id rmdir_ok Hhas). simpl.
    split; [reflexivity|]. split; [|split].
    + split; [reflexivity | intros _; exact Hhas].
    + reflexivity.
    + intros s' Hs'. discriminate.
Qed.

Lemma world_A_sessions : activeSessions world_A = [("session_1", socket_A)].
Proof. vm_compute. reflexivity. Qed.

Lemma stop_session_contract_witness :
  JsMap.get "session_1" (activeSessions world_A) = Some socket_A
  /\ JsMap.has "session_1"
       (activeSessions (snd (stop_session "session_1" false world_A))) = false
  /\ forall again_ok,
       stop_session "session_1" again_ok (snd (stop_session "session_1" false world_A))
       = (Normal tt,
          with_trace (fun t => t ++ [Respond 404 (not_found_body "session_1")])
            (snd (stop_session "session_1" false world_A))).
Proof.
  assert (H : JsMap.get "session_1" (activeSessions world_A) = Some socket_A)
    by (vm_compute; reflexivity).
  split; [exact H|].
  destruct (stop_session_contract world_A "session_1" false) as (_ & _ & _ & Hs).
  destruct (Hs socket_A H) as (_ & Hhas & _ & _ & _ & _ & _ & _ & Hagain).
  split; [exact Hhas | exact Hagain].
Defined.

(** ** The send loop *)

Lemma resume_loop_go (t : LoopTask) (outcome : SendOutcome) (w : World) :
  loops w = [t] ->
  loop_condition (loop_socket t) w = true ->
  resume_loop 0 outcome w
  = mkWorld (activeSessions w) (sockets w) (dataFs w) (uploads w) (timers w)
      [next_turn t] (trace w ++ turn_effects t outcome).
Proof.
  intros Hl Hc. unfold resume_loop. rewrite Hl. simpl.
  rewrite loop_turn_go
    by (erewrite loop_condition_frame; [exact Hc | reflexivity]).
  unfold with_loops, with_trace. simpl. rewrite Hl. reflexivity.
Qed.

(** C1 (where the code departs from it): the loop condition is
    [messages.length && activeSessions.has(sessionId)] and never compares
    [i] with [messages.length].  On a registered session with a non-empty
    message sequence the loop is therefore still running after any number
    of turns, and the turns past the end of the sequence send
    [messages[i]], which is [undefined]. *)
Theorem send_loop_runs_past_the_end (outcomes : list SendOutcome) (t : LoopTask) (w : World) :
  loops w = [t] ->
  loop_condition (loop_socket t) w = true ->
  let w' := run (map (ResumeLoop 0) outcomes) w in
  loops w' = [mkLoop (loop_socket t) (loop_jid t) (loop_i t + length outcomes)]
  /\ trace w' = trace w ++ turns_effects t outcomes
  /\ activeSessions w' = activeSessions w
  /\ forall outcome,
       (length (messages (data (loop_socket t))) <= loop_i t + length outcomes)%nat ->
       exists rest,
         trace (exec (ResumeLoop 0 outcome) w')
         = trace w' ++ SendMessageCall (sock_id (loop_socket t)) (loop_jid t)
                         (name (data (loop_socket t)) +:+ ": undefined") :: rest.
Proof.
  revert t w. induction outcomes as [|o r IH]; intros t w Hl Hc; simpl.
  - rewrite Nat.add_0_r, app_nil_r. destruct t as [s j i]. simpl in *.
    repeat split; try assumption; try reflexivity.
    intros outcome Hlen.
    rewrite (resume_loop_go _ outcome w Hl Hc). simpl.
    unfold turn_effects, send_effects. simpl.
    rewrite (lookup_ge_None_2 _ _ Hlen).
    destruct outcome; eexists; reflexivity.
  - rewrite (resume_loop_go t o w Hl Hc).
    match goal with |- context [run _ ?x] => remember x as w1 eqn:Hw1 end.
    assert (Hl1 : loops w1 = [next_turn t]) by (subst w1; reflexivity).
    assert (Hc1 : loop_condition (loop_socket (next_turn t)) w1 = true).
    { subst w1. simpl. erewrite loop_condition_frame; [exact Hc | reflexivity]. }
    destruct (IH (next_turn t) w1 Hl1 Hc1) as (H1 & H2 & H3 & H4).
    cbn [next_turn loop_socket loop_jid loop_i] in H1, H2, H3, H4.
    cbv zeta. rewrite Nat.add_succ_r. repeat split.
    + exact H1.
    + rewrite H2. subst w1. cbn [trace]. now rewrite <- app_assoc.
    + rewrite H3. now subst w1.
    + intros outcome Hlen. apply H4. lia.
Qed.

Lemma world_A_open_loops : loops world_A_open = [loop_A].
Proof. vm_compute. reflexivity. Qed.

Lemma world_A_open_condition : loop_condition socket_A world_A_open = true.
Proof. vm_compute. reflexivity. Qed.

Lemma send_loop_runs_past_the_end_witness :
  let w' := run (map (ResumeLoop 0) [Delivered; Delivered]) world_A_open in
  loops w' = [mkLoop socket_A "123@s.whatsapp.net" 3]
  /\ trace w' = trace world_A_open ++
       [SendMessageCall 0 "123@s.whatsapp.net" "ann: b";
        LogSent 2 "123@s.whatsapp.net" "ann: b";
        Delay 1000;
        SendMessageCall 0 "123@s.whatsapp.net" "ann: undefined";
        LogSent 3 "123@s.whatsapp.net" "ann: undefined";
        Delay 1000].
Proof.
  destruct (send_loop_runs_past_the_end [Delivered; Delivered] loop_A world_A_open
              world_A_open_loops world_A_open_condition) as (H1 & H2 & _).
  split; [exact H1 | exact H2].
Defined.


Lemma loop_turn_normal (t : LoopTask) (outcome : SendOutcome) (w : World) :
  exists r, fst (loop_turn t outcome w) = Normal r.
Proof.
  destruct (loop_condition (loop_socket t) w) eqn:Hc.
  - rewrite loop_turn_go by assumption. eauto.
  - rewrite loop_turn_leave by assumption. eauto.
Qed.




(** ** Closures *)

Lemma isAuthError_code (ld : option LastDisconnect) :
  isAuthError ld = true <-> close_code ld = Some 401.
Proof.
  unfold isAuthError, close_code.
  destruct (chain (chain (chain ld error) output) statusCode) as [c|].
  - rewrite Z.eqb_eq. split; [now intros -> | now intros [= ->]].
  - split; discriminate.
Qed.

Lemma on_close (s : Socket) (ld : option LastDisconnect) (rm_ok : bool)
    (outcome : SendOutcome) (w : World) :
  on_connection_update s (mkUpdate (Some "close") ld) rm_ok outcome w
  = handleSessionClosure (sessionId s) ld rm_ok w.
Proof. reflexivity. Qed.

(** C3 (where the code departs from it): a ["close"] update with status
    code 401 removes the session folder when the removal goes through (a
    failed removal is logged and absorbed) and schedules nothing, as
    claimed; but the handler leaves [activeSessions] as it was, so the id of
    a registered session stays registered although its folder is gone. *)
Theorem auth_invalid_closure (s : Socket) (ld : option LastDisconnect)
    (rm_ok : bool) (outcome : SendOutcome) (w : World) :
  close_code ld = Some 401 ->
  let r := on_connection_update s (mkUpdate (Some "close") ld) rm_ok outcome w in
  fst r = Normal tt
  /\ timers (snd r) = timers w
  /\ activeSessions (snd r) = activeSessions w
  /\ dataFs (snd r) = (if rm_ok then base.delete (sessionId s) (dataFs w) else dataFs w)
  /\ (rm_ok = true -> dataFs (snd r) !! sessionId s = None)
  /\ trace (snd r) = trace w ++ LogInvalidCredentials (sessionId s)
                       :: (if rm_ok then [] else [WarnRemoveFailed (sessionId s)])
  /\ sockets (snd r) = sockets w /\ uploads (snd r) = uploads w
  /\ loops (snd r) = loops w.
Proof.
  intros Hcode. apply isAuthError_code in Hcode.
  rewrite on_close. unfold handleSessionClosure, rm_recursive. rewrite Hcode.
  destruct rm_ok; js_unfold; repeat split; try reflexivity;
    try discriminate; try (now rewrite <- app_assoc).
  intros _. apply lookup_delete_eq.
Qed.

(** C4, as the code has it: a ["close"] update with any other reason
    schedules exactly one [safeStartWhatsAppSession(id)] with a delay of
    60000 ms, logs, and does nothing else; in particular the id is not
    removed from [activeSessions]. *)
Theorem recoverable_closure (s : Socket) (ld : option LastDisconnect)
    (rm_ok : bool) (outcome : SendOutcome) (w : World) :
  close_code ld <> Some 401 ->
  on_connection_update s (mkUpdate (Some "close") ld) rm_ok outcome w
  = (Normal tt,
     mkWorld (activeSessions w) (sockets w) (dataFs w) (uploads w)
       (timers w ++ [mkTimer 60000 (sessionId s)]) (loops w)
       (trace w ++ [LogClosedRestart (sessionId s)])).
Proof.
  intros Hcode. rewrite on_close. unfold handleSessionClosure, setTimeout.
  destruct (isAuthError ld) eqn:E.
  - apply isAuthError_code in E. contradiction.
  - reflexivity.
Qed.

Lemma auth_invalid_closure_witness :
  close_code (lastDisconnect (closed_with 401)) = Some 401
  /\ activeSessions (exec (ConnectionUpdate 0 (closed_with 401) true Delivered) world_A)
     = activeSessions world_A
  /\ dataFs (exec (ConnectionUpdate 0 (closed_with 401) true Delivered) world_A)
       !! "session_1" = None.
Proof.
  split; [reflexivity|].
  destruct (auth_invalid_closure socket_A (lastDisconnect (closed_with 401)) true
              Delivered world_A eq_refl) as (_ & _ & Hs & _ & Hd & _).
  split; [exact Hs | exact (Hd eq_refl)].
Defined.

Lemma recoverable_closure_witness :
  close_code (lastDisconnect (closed_with 428)) <> Some 401
  /\ timers (exec (ConnectionUpdate 0 (closed_with 428) true Delivered) world_A)
     = timers world_A ++ [mkTimer 60000 "session_1"].
Proof.
  assert (H : close_code (lastDisconnect (closed_with 428)) <> Some 401)
    by (simpl; discriminate).
  split; [exact H|].
  exact (f_equal (fun r => timers (snd r))
           (recoverable_closure socket_A (lastDisconnect (closed_with 428)) true
              Delivered world_A H)).
Defined.

(** On a session started through the HTTP surface: after the 401 closure
    the folder is gone, the id is still registered and listed by
    [/sessions], and the next start request, with credentials no session
    uses, is answered with 500, because [isDuplicateCreds] cannot read the
    [creds.json] of the registered id. *)
Lemma auth_invalid_closure_keeps_id_registered :
  let w := exec (ConnectionUpdate 0 (closed_with 401) true Delivered) world_A in
  let w' := run [Upload "uploads/credsC" "C"; PostSendMessage request_C 5] w in
  dataFs w !! "session_1" = None
  /\ JsMap.has "session_1" (activeSessions w) = true
  /\ ~ (JsMap.get "session_1" (activeSessions w) = None)
  /\ last (trace (exec GetSessions w)) = Some (Respond 200 (Ids ["session_1"]))
  /\ last (trace w') = Some (Respond 500 (Text "Failed to process the request."))
  /\ timers w' = [].
Proof. vm_compute. repeat split; congruence. Qed.

(** The claim of C4 fails on the same session: after a closure with another
    reason the restart is scheduled and the id is still registered. *)
Lemma recoverable_closure_keeps_id_registered :
  let w := exec (ConnectionUpdate 0 (closed_with 428) true Delivered) world_A in
  timers w = [mkTimer 60000 "session_1"]
  /\ JsMap.has "session_1" (activeSessions w) = true
  /\ ~ (JsMap.get "session_1" (activeSessions w) = None).
Proof. vm_compute. repeat split; congruence. Qed.

(** ** Load failures at start *)

Lemma readData_frame (id : string) (w1 w2 : World) :
  dataFs w1 = dataFs w2 -> fst (readData id w1) = fst (readData id w2).
Proof.
  unfold readData. intros ->.
  destruct (dataFs w2 !! id ≫= data_json) as [[|d]|]; reflexivity.
Qed.

Lemma readData_throw (id : string) (e : Error) (w : World) :
  fst (readData id w) = Throw e -> readData id w = (Throw e, w).
Proof.
  unfold readData.
  destruct (dataFs w !! id ≫= data_json) as [[|d]|]; simpl; congruence.
Qed.

Lemma start_load_failure (id : string) (e : Error) (transport_ok : bool) (w : World) :
  fst (readData id w) = Throw e ->
  startWhatsAppSession id transport_ok w
  = (Normal tt,
     mkWorld (activeSessions w) (sockets w) (dataFs w) (uploads w)
       (timers w ++ [mkTimer 60000 id]) (loops w)
       (trace w ++ [ErrInSession id e])).
Proof.
  intros H. apply readData_throw in H.
  unfold startWhatsAppSession, try_catch, bind at 1. rewrite H. reflexivity.
Qed.

Lemma safeStart_load_failure (id : string) (e : Error) (transport_ok : bool) (w : World) :
  fst (readData id w) = Throw e ->
  safeStartWhatsAppSession id transport_ok w
  = (Normal tt,
     mkWorld (activeSessions w) (sockets w) (dataFs w) (uploads w)
       (timers w ++ [mkTimer 60000 id]) (loops w)
       (trace w ++ [ErrInSession id e])).
Proof.
  intros H. unfold safeStartWhatsAppSession, try_catch.
  now rewrite (start_load_failure id e transport_ok w H).
Qed.

(** [startWhatsAppSession] catches whatever its body throws, so the
    handler of [safeStartWhatsAppSession] is never entered. *)
Lemma startWhatsAppSession_normal (id : string) (transport_ok : bool) (w : World) :
  fst (startWhatsAppSession id transport_ok w) = Normal tt.
Proof.
  unfold startWhatsAppSession, try_catch, bind at 1, readData.
  destruct (dataFs w !! id ≫= data_json) as [[|d]|]; try reflexivity.
  destruct transport_ok; reflexivity.
Qed.

Lemma safeStart_is_start (id : string) (transport_ok : bool) (w : World) :
  safeStartWhatsAppSession id transport_ok w = startWhatsAppSession id transport_ok w.
Proof.
  unfold safeStartWhatsAppSession, try_catch.
  pose proof (startWhatsAppSession_normal id transport_ok w) as H.
  destruct (startWhatsAppSession id transport_ok w) as [[[]|e] w']; simpl in H;
    [reflexivity | discriminate].
Qed.

Lemma retry_step (id : string) (e : Error) (transport_ok : bool) (ms : Z)
    (pre : list Timer) (w : World) :
  fst (readData id w) = Throw e ->
  timers w = pre ++ [mkTimer ms id] ->
  fire_timer (length pre) transport_ok w
  = mkWorld (activeSessions w) (sockets w) (dataFs w) (uploads w)
      (pre ++ [mkTimer 60000 id]) (loops w) (trace w ++ [ErrInSession id e]).
Proof.
  intros Hread Ht. unfold fire_timer.
  rewrite Ht, (list_lookup_middle pre [] _ (length pre) eq_refl). simpl.
  rewrite safeStart_load_failure with (e := e)
    by (rewrite <- Hread; apply readData_frame; reflexivity).
  simpl. rewrite Ht, delete_middle, app_nil_r. reflexivity.
Qed.

Lemma retry_forever (id : string) (e : Error) (oks : list bool) :
  forall (ms : Z) (pre : list Timer) (w : World),
    fst (readData id w) = Throw e ->
    timers w = pre ++ [mkTimer ms id] ->
    let w' := run (map (FireTimer (length pre)) oks) w in
    timers w' = pre ++ [mkTimer (match oks with [] => ms | _ => 60000 end) id]
    /\ trace w' = trace w ++ repeat (ErrInSession id e) (length oks)
    /\ dataFs w' = dataFs w
    /\ activeSessions w' = activeSessions w.
Proof.
  induction oks as [|ok r IH]; intros ms pre w Hread Ht; simpl.
  - rewrite app_nil_r. auto.
  - rewrite (retry_step id e ok ms pre w Hread Ht).
    match goal with |- context [run _ ?x] => remember x as w1 eqn:Hw1 end.
    assert (Hread1 : fst (readData id w1) = Throw e)
      by (rewrite <- Hread; apply readData_frame; now subst w1).
    assert (Ht1 : timers w1 = pre ++ [mkTimer 60000 id]) by now subst w1.
    destruct (IH 60000 pre w1 Hread1 Ht1) as (H1 & H2 & H3 & H4).
    cbv zeta in H1, H2, H3, H4. repeat split.
    + rewrite H1. now destruct r.
    + rewrite H2. subst w1. cbn [trace]. now rewrite <- app_assoc.
    + rewrite H3. now subst w1.
    + rewrite H4. now subst w1.
Qed.

(** C8, as the code has it: a start whose [data.json] cannot be read or
    parsed completes normally, registers nothing, deletes nothing and
    schedules exactly one retry of [safeStartWhatsAppSession(id)], with a
    delay of 60000 ms (the 10000 ms handler of [safeStartWhatsAppSession] is
    never entered).  The retries are unbounded: while the record stays
    unreadable every firing of the retry schedules the next one. *)
Theorem load_failure_retries_after_60s (id : string) (e : Error)
    (transport_ok : bool) (oks : list bool) (w : World) :
  fst (readData id w) = Throw e ->
  let w0 := snd (safeStartWhatsAppSession id transport_ok w) in
  let wn := run (map (FireTimer (length (timers w))) oks) w0 in
  fst (safeStartWhatsAppSession id transport_ok w) = Normal tt
  /\ timers w0 = timers w ++ [mkTimer 60000 id]
  /\ trace w0 = trace w ++ [ErrInSession id e]
  /\ activeSessions w0 = activeSessions w
  /\ dataFs w0 = dataFs w
  /\ timers wn = timers w ++ [mkTimer 60000 id]
  /\ trace wn = trace w ++ repeat (ErrInSession id e) (S (length oks))
  /\ dataFs wn = dataFs w
  /\ activeSessions wn = activeSessions w.
Proof.
  intros Hread. cbv zeta.
  rewrite (safeStart_load_failure id e transport_ok w Hread). cbn [fst snd].
  match goal with |- context [run _ ?x] => remember x as w0 eqn:Hw0 end.
  assert (Hread0 : fst (readData id w0) = Throw e)
    by (rewrite <- Hread; apply readData_frame; now subst w0).
  assert (Ht0 : timers w0 = timers w ++ [mkTimer 60000 id]) by now subst w0.
  destruct (retry_forever id e oks 60000 (timers w) w0 Hread0 Ht0)
    as (H1 & H2 & H3 & H4).
  cbv zeta in H1, H2, H3, H4.
  rewrite H1, H2, H3, H4. subst w0. cbn [timers trace dataFs activeSessions].
  repeat split; try reflexivity.
  - now destruct oks.
  - now rewrite <- app_assoc.
Qed.

Lemma load_failure_retries_after_60s_witness :
  fst (readData "S1" boot) = Throw ENOENT
  /\ timers (snd (safeStartWhatsAppSession "S1" true boot)) = [mkTimer 60000 "S1"]
  /\ timers (run (map (FireTimer 0) [true; true; true])
               (snd (safeStartWhatsAppSession "S1" true boot)))
     = [mkTimer 60000 "S1"].
Proof.
  destruct (load_failure_retries_after_60s "S1" ENOENT true [true; true; true] boot
              eq_refl) as (_ & H1 & _ & _ & _ & H2 & _).
  split; [reflexivity|]. split; [exact H1 | exact H2].
Defined.

(** The claim of C8 fails on its interval: the retry that a load failure
    schedules waits 60000 ms; no timer of 10000 ms is pending. *)
Lemma load_failure_retry_is_not_10s :
  let w := snd (safeStartWhatsAppSession "S1" true boot) in
  fst (readData "S1" boot) = Throw ENOENT
  /\ timers w = [mkTimer 60000 "S1"]
  /\ ~ (exists t, t ∈ timers w /\ timer_ms t = 10000).
Proof.
  cbv zeta. split; [reflexivity|]. split; [reflexivity|].
  intros (t & Hin & Hms). cbn in Hin.
  apply list_elem_of_singleton in Hin. subst t. discriminate.
Qed.

(** ** Stop and pending restarts *)

Lemma stop_session_timers (w : World) (id : string) (rmdir_ok : bool) :
  timers (snd (stop_session id rmdir_ok w)) = timers w.
Proof.
  destruct (JsMap.get id (activeSessions w)) as [s|] eqn:Hget.
  - now rewrite (stop_session_present w id s rmdir_ok Hget).
  - rewrite stop_session_absent; [reflexivity|].
    unfold JsMap.has. now rewrite Hget.
Qed.

(** C5, as the code has it: [stopSession] never touches the pending timers.
    A restart scheduled for the id before the stop is still pending after
    it, and when it fires it runs [startWhatsAppSession(id)] on the world
    the stop has left; after a stop that removed the folder that start
    cannot load the record and schedules the next retry. *)
Theorem stop_keeps_pending_restarts (w : World) (id : string) (rmdir_ok : bool) :
  let w' := snd (stop_session id rmdir_ok w) in
  timers w' = timers w
  /\ (forall k t transport_ok,
        timers w !! k = Some t ->
        exec (FireTimer k transport_ok) w'
        = snd (startWhatsAppSession (timer_session t) transport_ok
                 (with_timers (base.delete k) w')))
  /\ (forall k ms transport_ok,
        timers w !! k = Some (mkTimer ms id) ->
        JsMap.has id (activeSessions w) = true ->
        rmdir_ok = true ->
        timers (exec (FireTimer k transport_ok) w')
        = base.delete k (timers w) ++ [mkTimer 60000 id]).
Proof.
  cbv zeta. pose proof (stop_session_timers w id rmdir_ok) as Ht.
  split; [exact Ht|]. split.
  - intros k t transport_ok Hk. simpl. unfold fire_timer.
    rewrite Ht, Hk. now rewrite safeStart_is_start.
  - intros k ms transport_ok Hk Hhas ->. simpl. unfold fire_timer.
    rewrite Ht, Hk. cbn [timer_session].
    apply JsMapFacts.has_get in Hhas as [s Hs].
    rewrite (stop_session_present w id s true Hs). cbn [snd].
    rewrite safeStart_load_failure with (e := ENOENT).
    + reflexivity.
    + unfold readData. simpl. now rewrite lookup_delete_eq.
Qed.

Lemma stop_keeps_pending_restarts_witness :
  timers world_A_closed !! 0%nat = Some (mkTimer 60000 "session_1")
  /\ JsMap.has "session_1" (activeSessions world_A_closed) = true
  /\ timers (exec (FireTimer 0 true)
               (snd (stop_session "session_1" true world_A_closed)))
     = base.delete 0%nat (timers world_A_closed) ++ [mkTimer 60000 "session_1"].
Proof.
  assert (Hk : timers world_A_closed !! 0%nat = Some (mkTimer 60000 "session_1"))
    by (vm_compute; reflexivity).
  assert (Hh : JsMap.has "session_1" (activeSessions world_A_closed) = true)
    by (vm_compute; reflexivity).
  split; [exact Hk|]. split; [exact Hh|].
  destruct (stop_keeps_pending_restarts world_A_closed "session_1" true) as (_ & _ & H).
  exact (H 0%nat 60000 true Hk Hh eq_refl).
Defined.

(** The claim of C5 fails: a restart is pending for a session, the session
    is stopped with success, and the restart still fires.  When the folder
    could not be removed the stopped session is registered again; when it
    was removed the start fails and re-arms itself. *)
Lemma stop_does_not_cancel_restart :
  let kept := exec (PostStopSession "session_1" false) world_A_closed in
  let removed := exec (PostStopSession "session_1" true) world_A_closed in
  last (trace kept) = Some (Respond 200 (stopped_body "session_1"))
  /\ JsMap.has "session_1" (activeSessions kept) = false
  /\ timers kept = [mkTimer 60000 "session_1"]
  /\ JsMap.get "session_1" (activeSessions (exec (FireTimer 0 true) kept))
     = Some (mkSocket 1 "session_1" (data socket_A))
  /\ last (trace removed) = Some (Respond 200 (stopped_body "session_1"))
  /\ timers removed = [mkTimer 60000 "session_1"]
  /\ last (trace (exec (FireTimer 0 true) removed))
     = Some (ErrInSession "session_1" ENOENT)
  /\ timers (exec (FireTimer 0 true) removed) = [mkTimer 60000 "session_1"].
Proof. vm_compute. repeat split; reflexivity. Qed.

(** ** Registration *)

Section Frame.
Context {A B : Type}.

Lemma keeps_ret (a : A) : keeps_sessions (ret a).
Proof. intros w. reflexivity. Qed.

Lemma keeps_throw (e : Error) : keeps_sessions (@throw A e).
Proof. intros w. reflexivity. Qed.

Lemma keeps_gets (f : World -> A) : keeps_sessions (gets f).
Proof. intros w. reflexivity. Qed.

Lemma keeps_bind (c : JS A) (k : A -> JS B) :
  keeps_sessions c -> (forall a, keeps_sessions (k a)) -> keeps_sessions (bind c k).
Proof.
  intros Hc Hk w. unfold bind. specialize (Hc w).
  destruct (c w) as [[a|e] w1]; simpl in *; [|exact Hc].
  now rewrite Hk.
Qed.

Lemma keeps_try_catch (c : JS A) (h : Error -> JS A) :
  keeps_sessions c -> (forall e, keeps_sessions (h e)) -> keeps_sessions (try_catch c h).
Proof.
  intros Hc Hh w. unfold try_catch. specialize (Hc w).
  destruct (c w) as [[a|e] w1]; simpl in *; [exact Hc|].
  now rewrite Hh.
Qed.
End Frame.

Lemma keeps_effect (e : Effect) : keeps_sessions (effect e).
Proof. intros w. reflexivity. Qed.

Lemma keeps_setTimeout (id : string) (ms : Z) : keeps_sessions (setTimeout id ms).
Proof. intros w. reflexivity. Qed.

Lemma keeps_readUpload (p : string) : keeps_sessions (readUpload p).
Proof. intros w. unfold readUpload. now destruct (uploads w !! p). Qed.

Lemma keeps_readCreds (id : string) : keeps_sessions (readCreds id).
Proof. intros w. unfold readCreds. now destruct (dataFs w !! id ≫= creds_json). Qed.

Lemma keeps_unlink (p : string) : keeps_sessions (unlink p).
Proof. intros w. unfold unlink. now destruct (uploads w !! p). Qed.

Lemma keeps_mkdir (id : string) : keeps_sessions (mkdir id).
Proof. intros w. reflexivity. Qed.

Lemma keeps_rm_recursive (id : string) (ok : bool) : keeps_sessions (rm_recursive id ok).
Proof. intros w. now destruct ok. Qed.

Lemma keeps_write_in_dir (id : string) (f : SessionDir -> SessionDir) :
  keeps_sessions (write_in_dir id f).
Proof. intros w. unfold write_in_dir. now destruct (dataFs w !! id). Qed.

Lemma keeps_file_path (f : option string) : keeps_sessions (file_path f).
Proof. destruct f; [apply keeps_ret | apply keeps_throw]. Qed.

Create HintDb frame.
#[local] Hint Resolve keeps_ret keeps_throw keeps_gets keeps_effect keeps_setTimeout
  keeps_readUpload keeps_readCreds keeps_unlink keeps_mkdir keeps_rm_recursive
  keeps_write_in_dir keeps_file_path : frame.

Ltac frame :=
  repeat first
    [ apply keeps_bind; [|intros ?]
    | apply keeps_try_catch; [|intros ?]
    | progress auto with frame
    | match goal with
      | |- keeps_sessions (if ?b then _ else _) => destruct b
      | |- keeps_sessions (match ?o with Some _ => _ | None => _ end) => destruct o
      end ].

Lemma keeps_scan_sessions (h : string) (entries : list (string * Socket)) :
  keeps_sessions (scan_sessions h entries).
Proof.
  induction entries as [|[id s] r IH]; simpl; [apply keeps_ret|].
  apply keeps_bind; [apply keeps_readCreds|].
  intros c. destruct (String.eqb c h); [apply keeps_ret | exact IH].
Qed.
#[local] Hint Resolve keeps_scan_sessions : frame.

Lemma keeps_send_message (req : Request) (now : Z) : keeps_sessions (send_message req now).
Proof.
  unfold send_message, isDuplicateCreds, createSessionFolder, copyFile_creds,
    writeFile_data, setImmediate.
  frame.
Qed.

Lemma keeps_sendMessage socket jid nm msg dt idx outcome :
  keeps_sessions (sendMessage socket jid nm msg dt idx outcome).
Proof. intros w. now rewrite sendMessage_spec. Qed.

Lemma keeps_loop_turn (t : LoopTask) (outcome : SendOutcome) :
  keeps_sessions (loop_turn t outcome).
Proof.
  intros w. destruct (loop_condition (loop_socket t) w) eqn:Hc.
  - now rewrite loop_turn_go.
  - now rewrite loop_turn_leave.
Qed.

Lemma keeps_handleSessionClosure (id : string) ld (rm_ok : bool) :
  keeps_sessions (handleSessionClosure id ld rm_ok).
Proof. unfold handleSessionClosure. frame. Qed.

Lemma keeps_on_connection_update (s : Socket) (u : Update) (rm_ok : bool)
    (outcome : SendOutcome) :
  keeps_sessions (on_connection_update s u rm_ok outcome).
Proof.
  unfold on_connection_update.
  apply keeps_bind.
  - destruct (connection_is u "open"); [|apply keeps_ret].
    apply keeps_bind; [apply keeps_effect|]. intros _.
    apply keeps_bind; [apply keeps_loop_turn|].
    intros [t'|]; [|apply keeps_ret]. intros w. reflexivity.
  - intros _. destruct (connection_is u "close");
      [apply keeps_handleSessionClosure | apply keeps_ret].
Qed.

(** A start that gets through registers the new socket under the id,
    whether or not the id was registered. *)
Lemma start_registers (id : string) (d : SessionData) (w : World) :
  fst (readData id w) = Normal d ->
  startWhatsAppSession id true w
  = (Normal tt,
     mkWorld (JsMap.set id (mkSocket (length (sockets w)) id d) (activeSessions w))
       (sockets w ++ [mkSocket (length (sockets w)) id d])
       (dataFs w) (uploads w) (timers w) (loops w) (trace w)).
Proof.
  unfold startWhatsAppSession, try_catch, bind at 1, readData.
  destruct (dataFs w !! id ≫= data_json) as [[|d']|]; simpl; try discriminate.
  now intros [= ->].
Qed.

Lemma start_sessions (id : string) (transport_ok : bool) (w : World) :
  activeSessions (snd (startWhatsAppSession id transport_ok w)) = activeSessions w
  \/ exists s, activeSessions (snd (startWhatsAppSession id transport_ok w))
               = JsMap.set id s (activeSessions w).
Proof.
  destruct (fst (readData id w)) as [d|e] eqn:Hr.
  - destruct transport_ok.
    + right. rewrite (start_registers id d w Hr). eauto.
    + left. unfold startWhatsAppSession, try_catch, bind at 1, readData.
      destruct (dataFs w !! id ≫= data_json) as [[|d']|]; reflexivity.
  - left. now rewrite (start_load_failure id e transport_ok w Hr).
Qed.

(** Every step of the event loop keeps the keys of [activeSessions]
    pairwise distinct. *)
Lemma exec_NoDup (o : Op) (w : World) :
  NoDup (JsMap.keys (activeSessions w)) ->
  NoDup (JsMap.keys (activeSessions (exec o w))).
Proof.
  intros Hnd. destruct o as [p c|req now|id ok| |k u rm_ok outcome|k outcome|k ok]; simpl.
  - exact Hnd.
  - now rewrite keeps_send_message.
  - destruct (JsMap.get id (activeSessions w)) as [s|] eqn:Hget.
    + rewrite (stop_session_present w id s ok Hget). simpl.
      now apply JsMapFacts.NoDup_keys_delete.
    + rewrite stop_session_absent; [exact Hnd|].
      unfold JsMap.has. now rewrite Hget.
  - exact Hnd.
  - destruct (sockets w !! k) as [s|]; [|exact Hnd].
    now rewrite keeps_on_connection_update.
  - unfold resume_loop. destruct (loops w !! k) as [t|]; [|exact Hnd].
    pose proof (keeps_loop_turn t outcome (with_loops (base.delete k) w)) as H.
    destruct (loop_turn t outcome (with_loops (base.delete k) w)) as [[[t'|]|e] w1];
      simpl in *; now rewrite H.
  - unfold fire_timer. destruct (timers w !! k) as [t|]; [|exact Hnd].
    rewrite safeStart_is_start.
    destruct (start_sessions (timer_session t) ok (with_timers (base.delete k) w))
      as [H|[s H]]; rewrite H; simpl; [exact Hnd|].
    now apply JsMapFacts.NoDup_keys_set.
Qed.

Lemma run_NoDup (ops : list Op) (w : World) :
  NoDup (JsMap.keys (activeSessions w)) ->
  NoDup (JsMap.keys (activeSessions (run ops w))).
Proof.
  revert w. induction ops as [|o r IH]; intros w Hnd; simpl; [exact Hnd|].
  apply IH, exec_NoDup, Hnd.
Qed.

(** C2, as the code has it: in every world the event loop can reach, an id
    has at most one entry in [activeSessions].  A start for an id that is
    already registered does not abort: [activeSessions.set] puts the newly
    made socket in the place of the registered one (the other entries and
    the order of the keys stay as they were). *)
Theorem start_replaces_registered_handle :
  (forall ops : list Op, NoDup (JsMap.keys (activeSessions (run ops boot))))
  /\ (forall (id : string) (d : SessionData) (old : Socket) (w : World),
        fst (readData id w) = Normal d ->
        JsMap.get id (activeSessions w) = Some old ->
        let new := mkSocket (length (sockets w)) id d in
        let w' := snd (startWhatsAppSession id true w) in
        JsMap.get id (activeSessions w') = Some new
        /\ JsMap.keys (activeSessions w') = JsMap.keys (activeSessions w)
        /\ sockets w' = sockets w ++ [new]
        /\ (forall id', id <> id' ->
              JsMap.get id' (activeSessions w') = JsMap.get id' (activeSessions w))).
Proof.
  split.
  - intros ops. apply run_NoDup. simpl. apply NoDup_nil. exact I.
  - intros id d old w Hread Hold. cbv zeta.
    rewrite (start_registers id d w Hread). cbn [snd activeSessions sockets].
    repeat split.
    + apply JsMapFacts.get_set_eq.
    + apply JsMapFacts.keys_set_present. unfold JsMap.has. now rewrite Hold.
    + intros id' Hne. now apply JsMapFacts.get_set_ne.
Qed.

Lemma start_replaces_registered_handle_witness :
  fst (readData "session_1" world_A_closed) = Normal (data socket_A)
  /\ JsMap.get "session_1" (activeSessions world_A_closed) = Some socket_A
  /\ JsMap.get "session_1"
       (activeSessions (snd (startWhatsAppSession "session_1" true world_A_closed)))
     = Some (mkSocket (length (sockets world_A_closed)) "session_1" (data socket_A)).
Proof.
  assert (Hr : fst (readData "session_1" world_A_closed) = Normal (data socket_A))
    by (vm_compute; reflexivity).
  assert (Hg : JsMap.get "session_1" (activeSessions world_A_closed) = Some socket_A)
    by (vm_compute; reflexivity).
  split; [exact Hr|]. split; [exact Hg|].
  exact (proj1 (proj2 start_replaces_registered_handle "session_1" (data socket_A)
                  socket_A world_A_closed Hr Hg)).
Defined.

(** The claim of C2 fails on the restart path: the closure with a
    recoverable reason leaves the id registered, the restart timer fires,
    and the start neither aborts nor leaves the world as it was: a second
    socket is made and takes the place of the registered one. *)
Lemma start_on_registered_id_overwrites :
  let w' := exec (FireTimer 0 true) world_A_closed in
  JsMap.get "session_1" (activeSessions world_A_closed) = Some socket_A
  /\ JsMap.get "session_1" (activeSessions w') = Some (mkSocket 1 "session_1" (data socket_A))
  /\ JsMap.get "session_1" (activeSessions w') <> Some socket_A
  /\ length (sockets world_A_closed) = 1%nat
  /\ length (sockets w') = 2%nat.
Proof. vm_compute. repeat split; try reflexivity. discriminate. Qed.

(** ** Duplicate credentials *)

Lemma scan_sessions_hit (content : string) (before : list (string * Socket))
    (sid : string) (sock : Socket) (after : list (string * Socket)) (w : World) :
  (forall id s, (id, s) ∈ before -> is_Some (dataFs w !! id ≫= creds_json)) ->
  dataFs w !! sid ≫= creds_json = Some content ->
  scan_sessions content (before ++ (sid, sock) :: after) w = (Normal true, w).
Proof.
  intros Hb Hs. induction before as [|[id s] r IH]; simpl.
  - unfold bind, readCreds. rewrite Hs. now rewrite String.eqb_refl.
  - destruct (Hb id s) as [c Hc]; [apply elem_of_cons; now left|].
    unfold bind at 1, readCreds. rewrite Hc.
    destruct (String.eqb c content); [reflexivity|].
    apply IH. intros id' s' Hin. apply (Hb id' s'). apply elem_of_cons. now right.
Qed.

(** A start request finds, before any session with the same credentials, a
    registered id whose [creds.json] cannot be read: [isDuplicateCreds]
    throws and the route answers 500. *)
Lemma scan_sessions_unreadable (content : string) (before : list (string * Socket))
    (sid : string) (sock : Socket) (after : list (string * Socket)) (w : World) :
  (forall id s, (id, s) ∈ before ->
     exists c, dataFs w !! id ≫= creds_json = Some c /\ c <> content) ->
  dataFs w !! sid ≫= creds_json = None ->
  scan_sessions content (before ++ (sid, sock) :: after) w = (Throw ENOENT, w).
Proof.
  intros Hb Hs. induction before as [|[id s] r IH]; simpl.
  - unfold bind, readCreds. now rewrite Hs.
  - destruct (Hb id s) as (c & Hc & Hne); [apply elem_of_cons; now left|].
    unfold bind at 1, readCreds. rewrite Hc.
    apply String.eqb_neq in Hne. rewrite Hne.
    apply IH. intros id' s' Hin. apply (Hb id' s'). apply elem_of_cons. now right.
Qed.

Lemma send_message_unreadable_creds (req : Request) (now : Z) (w : World)
    (credsFilePath messageFilePath content : string)
    (before : list (string * Socket)) (sid : string) (sock : Socket)
    (after : list (string * Socket)) :
  files_creds req = Some credsFilePath ->
  files_messageFile req = Some messageFilePath ->
  uploads w !! credsFilePath = Some content ->
  activeSessions w = before ++ (sid, sock) :: after ->
  (forall id s, (id, s) ∈ before ->
     exists c, dataFs w !! id ≫= creds_json = Some c /\ c <> content) ->
  dataFs w !! sid ≫= creds_json = None ->
  send_message req now w
  = (Normal tt,
     with_trace (fun t => t ++ [ErrProcessing ENOENT;
                                Respond 500 (Text "Failed to process the request.")]) w).
Proof.
  intros Hc Hm Hu Ha Hb Hs.
  assert (Hdup : isDuplicateCreds credsFilePath w = (Throw ENOENT, w)).
  { unfold isDuplicateCreds, bind, readUpload, gets. rewrite Hu, Ha.
    apply scan_sessions_unreadable; assumption. }
  unfold send_message, try_catch.
  rewrite Hc, Hm. unfold file_path, bind at 1 2 3, ret.
  rewrite Hdup. js_unfold. now rewrite <- app_assoc.
Qed.

(** C10, as the code has it: when a start request carries both files, the
    uploaded credentials equal the stored [creds.json] of an active session
    and the [creds.json] of every session that [activeSessions] lists before
    that one can be read, the request is answered with 400, the uploaded
    credentials file is unlinked, and nothing else changes: no folder, no
    record, no timer, no registration. *)
Theorem duplicate_creds_rejected (req : Request) (now : Z) (w : World)
    (credsFilePath messageFilePath content : string)
    (before : list (string * Socket)) (sid : string) (sock : Socket)
    (after : list (string * Socket)) :
  files_creds req = Some credsFilePath ->
  files_messageFile req = Some messageFilePath ->
  uploads w !! credsFilePath = Some content ->
  activeSessions w = before ++ (sid, sock) :: after ->
  (forall id s, (id, s) ∈ before -> is_Some (dataFs w !! id ≫= creds_json)) ->
  dataFs w !! sid ≫= creds_json = Some content ->
  send_message req now w
  = (Normal tt,
     mkWorld (activeSessions w) (sockets w) (dataFs w)
       (base.delete credsFilePath (uploads w)) (timers w) (loops w)
       (trace w ++ [Respond 400 duplicate_body])).
Proof.
  intros Hc Hm Hu Ha Hb Hs.
  assert (Hdup : isDuplicateCreds credsFilePath w = (Normal true, w)).
  { unfold isDuplicateCreds, bind, readUpload, gets. rewrite Hu, Ha.
    apply scan_sessions_hit; assumption. }
  unfold send_message, try_catch.
  rewrite Hc, Hm. unfold file_path, bind at 1 2 3, ret.
  rewrite Hdup. unfold bind, unlink. rewrite Hu. reflexivity.
Qed.

Lemma duplicate_creds_rejected_witness :
  uploads world_A !! "uploads/credsA" = Some "A"
  /\ dataFs world_A !! "session_1" ≫= creds_json = Some "A"
  /\ send_message request_A 2 world_A
     = (Normal tt,
        mkWorld (activeSessions world_A) (sockets world_A) (dataFs world_A)
          (base.delete "uploads/credsA" (uploads world_A)) (timers world_A)
          (loops world_A) (trace world_A ++ [Respond 400 duplicate_body])).
Proof.
  assert (Hu : uploads world_A !! "uploads/credsA" = Some "A") by (vm_compute; reflexivity).
  assert (Hs : dataFs world_A !! "session_1" ≫= creds_json = Some "A")
    by (vm_compute; reflexivity).
  split; [exact Hu|]. split; [exact Hs|].
  apply (duplicate_creds_rejected request_A 2 world_A "uploads/credsA" "uploads/msgsA"
           "A" [] "session_1" socket_A []);
    [reflexivity | reflexivity | exact Hu | exact world_A_sessions | | exact Hs].
  intros id s Hin. apply elem_of_nil in Hin. contradiction.
Defined.

(** The claim of C10 fails there: the upload equals the stored [creds.json]
    of the active session [session_2], yet reading the [creds.json] of
    [session_1], listed first, throws; the request is answered with 500 and
    the uploaded file stays. *)
Lemma duplicate_behind_unreadable_session_gets_500 :
  let w' := exec (PostSendMessage request_B 3) world_AB in
  JsMap.keys (activeSessions world_AB) = ["session_1"; "session_2"]
  /\ uploads world_AB !! "uploads/credsB" = Some "B"
  /\ dataFs world_AB !! "session_2" ≫= creds_json = Some "B"
  /\ last (trace w') = Some (Respond 500 (Text "Failed to process the request."))
  /\ ~ (Respond 400 duplicate_body ∈ trace w')
  /\ uploads w' !! "uploads/credsB" = Some "B".
Proof.
  vm_compute. repeat split; try reflexivity.
  intros H. repeat (apply elem_of_cons in H as [H|H]; [discriminate|]).
  apply elem_of_nil in H. contradiction.
Qed.

(** * Further properties *)

(** ** The start request *)

Lemma scan_sessions_state (h : string) (entries : list (string * Socket)) (w : World) :
  snd (scan_sessions h entries w) = w.
Proof.
  induction entries as [|[id s] r IH]; simpl; [reflexivity|].
  unfold bind, readCreds.
  destruct (dataFs w !! id ≫= creds_json) as [c|]; [|reflexivity].
  destruct (String.eqb c h); [reflexivity | exact IH].
Qed.

Lemma scan_sessions_decides (content : string) (entries : list (string * Socket)) (w : World) :
  (forall id s, (id, s) ∈ entries -> is_Some (dataFs w !! id ≫= creds_json)) ->
  exists b,
    scan_sessions content entries w = (Normal b, w)
    /\ (b = true <->
        exists id s, (id, s) ∈ entries /\ dataFs w !! id ≫= creds_json = Some content).
Proof.
  induction entries as [|[id s] r IH]; intros Hr; simpl.
  - exists false. split; [reflexivity|]. split; [discriminate|].
    intros (id & s & Hin & _). apply elem_of_nil in Hin. contradiction.
  - destruct (Hr id s) as [c Hc]; [apply elem_of_cons; now left|].
    unfold bind at 1, readCreds. rewrite Hc.
    destruct (String.eqb c content) eqn:E.
    + apply String.eqb_eq in E. subst c.
      exists true. split; [reflexivity|]. split; [|reflexivity].
      intros _. exists id, s. split; [apply elem_of_cons; now left | exact Hc].
    + destruct IH as (b & Hb & Hiff).
      { intros id' s' Hin. apply (Hr id' s'). apply elem_of_cons. now right. }
      exists b. split; [exact Hb|]. rewrite Hiff. split.
      * intros (id' & s' & Hin & Hc'). exists id', s'.
        split; [apply elem_of_cons; now right | exact Hc'].
      * intros (id' & s' & Hin & Hc'). apply elem_of_cons in Hin as [Heq|Hin].
        -- injection Heq as -> ->. rewrite Hc in Hc'. injection Hc' as ->.
           rewrite String.eqb_refl in E. discriminate.
        -- exists id', s'. split; assumption.
Qed.

(** X1: with an upload it can read and every registered session's
    [creds.json] readable, [isDuplicateCreds] changes nothing and answers
    [true] exactly when some registered session stores the uploaded
    content. *)
Theorem isDuplicateCreds_decides (credsFilePath content : string) (w : World) :
  uploads w !! credsFilePath = Some content ->
  (forall id s, (id, s) ∈ activeSessions w -> is_Some (dataFs w !! id ≫= creds_json)) ->
  exists b,
    isDuplicateCreds credsFilePath w = (Normal b, w)
    /\ (b = true <->
        exists id s, (id, s) ∈ activeSessions w
                     /\ dataFs w !! id ≫= creds_json = Some content).
Proof.
  intros Hu Hr. unfold isDuplicateCreds, bind, readUpload, gets. rewrite Hu.
  apply scan_sessions_decides, Hr.
Qed.

Lemma isDuplicateCreds_decides_witness :
  uploads world_A !! "uploads/credsA" = Some "A"
  /\ exists b, isDuplicateCreds "uploads/credsA" world_A = (Normal b, world_A)
     /\ (b = true <->
         exists id s, (id, s) ∈ activeSessions world_A
                      /\ dataFs world_A !! id ≫= creds_json = Some "A").
Proof.
  assert (Hu : uploads world_A !! "uploads/credsA" = Some "A") by (vm_compute; reflexivity).
  split; [exact Hu|].
  apply (isDuplicateCreds_decides "uploads/credsA" "A" world_A Hu).
  intros id s Hin. rewrite world_A_sessions in Hin.
  apply list_elem_of_singleton in Hin. injection Hin as -> ->.
  vm_compute. eauto.
Defined.

Lemma createSessionFolder_spec (id : string) (w : World) :
  createSessionFolder id w
  = (Normal id,
     with_dataFs (fun fs => match fs !! id with
                            | Some _ => fs
                            | None => <[id := mkDir None None]> fs
                            end) w).
Proof. reflexivity. Qed.

Lemma write_in_dir_spec (id : string) (f : SessionDir -> SessionDir) (d : SessionDir) (w : World) :
  dataFs w !! id = Some d ->
  write_in_dir id f w = (Normal tt, with_dataFs (<[id := f d]>) w).
Proof. intros H. unfold write_in_dir. now rewrite H. Qed.

(** A request that is accepted: the folder ends with the uploaded
    credentials and the record, whatever it held before. *)
Lemma accepted_folder (id : string) (c : string) (d : SessionData) (fs : gmap string SessionDir) :
  let fs1 := match fs !! id with
             | Some _ => fs
             | None => <[id := mkDir None None]> fs
             end in
  exists d1 d2,
    fs1 !! id = Some d1
    /\ <[id := mkDir (Some c) (data_json d1)]> fs1 !! id = Some d2
    /\ <[id := mkDir (creds_json d2) (Some (Parsed d))]>
         (<[id := mkDir (Some c) (data_json d1)]> fs1)
       = <[id := mkDir (Some c) (Some (Parsed d))]> fs.
Proof.
  simpl. destruct (fs !! id) as [d0|] eqn:E.
  - exists d0, (mkDir (Some c) (data_json d0)).
    split; [exact E|]. split; [apply lookup_insert_eq|].
    simpl. apply insert_insert_eq.
  - exists (mkDir None None), (mkDir (Some c) None).
    split; [apply lookup_insert_eq|]. split; [apply lookup_insert_eq|].
    simpl. now rewrite !insert_insert_eq.
Qed.

Lemma isDuplicateCreds_miss (credsFilePath content : string) (w : World) :
  uploads w !! credsFilePath = Some content ->
  (forall id s, (id, s) ∈ activeSessions w ->
     exists c, dataFs w !! id ≫= creds_json = Some c /\ c <> content) ->
  isDuplicateCreds credsFilePath w = (Normal false, w).
Proof.
  intros Hu Hr.
  destruct (isDuplicateCreds_decides credsFilePath content w Hu) as (b & Hb & Hiff).
  { intros id s Hin. destruct (Hr id s Hin) as (c & Hc & _). eauto. }
  rewrite Hb. destruct b; [|reflexivity].
  destruct (proj1 Hiff eq_refl) as (id & s & Hin & Hc).
  destruct (Hr id s Hin) as (c & Hc' & Hne). congruence.
Qed.

Lemma isDuplicateCreds_state (credsFilePath : string) (w : World) :
  snd (isDuplicateCreds credsFilePath w) = w.
Proof.
  unfold isDuplicateCreds, bind, readUpload, gets.
  destruct (uploads w !! credsFilePath); [apply scan_sessions_state | reflexivity].
Qed.

Lemma isDuplicateCreds_normal (credsFilePath : string) (w : World) (b : bool) :
  fst (isDuplicateCreds credsFilePath w) = Normal b ->
  is_Some (uploads w !! credsFilePath).
Proof.
  unfold isDuplicateCreds, bind at 1, readUpload.
  destruct (uploads w !! credsFilePath); [eauto | discriminate].
Qed.

(** The branch of [/send-message] behind a negative duplicate check. *)
Lemma send_message_fresh (req : Request) (now : Z) (w : World)
    (credsFilePath messageFilePath content text : string) :
  files_creds req = Some credsFilePath ->
  files_messageFile req = Some messageFilePath ->
  isDuplicateCreds credsFilePath w = (Normal false, w) ->
  uploads w !! credsFilePath = Some content ->
  uploads w !! messageFilePath = Some text ->
  send_message req now w
  = (Normal tt,
     mkWorld (activeSessions w) (sockets w)
       (<[session_id now := mkDir (Some content) (Some (Parsed (request_data req text)))]>
          (dataFs w))
       (uploads w) (timers w ++ [mkTimer 0 (session_id now)]) (loops w)
       (trace w ++ [Respond 200 (Text ("Session " +:+ session_id now +:+ " started."))])).
Proof.
  intros Hc Hm Hdup Hu Ht.
  unfold send_message, try_catch.
  rewrite Hc, Hm. unfold file_path, bind at 1 2 3, ret.
  rewrite Hdup. cbv zeta. fold (session_id now).
  destruct (accepted_folder (session_id now) content (request_data req text) (dataFs w))
    as (d1 & d2 & H1 & H2 & H3).
  unfold bind at 1. rewrite createSessionFolder_spec.
  unfold bind at 1, copyFile_creds. unfold bind at 1, readUpload at 1.
  cbn [uploads with_dataFs]. rewrite Hu.
  rewrite (write_in_dir_spec _ _ d1) by exact H1.
  unfold bind at 1, readUpload. cbn [uploads with_dataFs]. rewrite Ht.
  unfold bind at 1, writeFile_data.
  rewrite (write_in_dir_spec _ _ d2) by exact H2.
  unfold request_data in *. js_unfold. rewrite H3. reflexivity.
Qed.

(** The same branch when the message file cannot be read: the folder has
    been made and holds the credentials by then. *)
Lemma send_message_fresh_unread (req : Request) (now : Z) (w : World)
    (credsFilePath messageFilePath content : string) :
  files_creds req = Some credsFilePath ->
  files_messageFile req = Some messageFilePath ->
  isDuplicateCreds credsFilePath w = (Normal false, w) ->
  uploads w !! credsFilePath = Some content ->
  uploads w !! messageFilePath = None ->
  exists d,
    send_message req now w
    = (Normal tt,
       mkWorld (activeSessions w) (sockets w)
         (<[session_id now := mkDir (Some content) d]> (dataFs w))
         (uploads w) (timers w) (loops w)
         (trace w ++ [ErrProcessing ENOENT;
                      Respond 500 (Text "Failed to process the request.")])).
Proof.
  intros Hc Hm Hdup Hu Ht.
  unfold send_message, try_catch.
  rewrite Hc, Hm. unfold file_path, bind at 1 2 3, ret.
  rewrite Hdup. cbv zeta. fold (session_id now).
  unfold bind at 1. rewrite createSessionFolder_spec.
  unfold bind at 1, copyFile_creds. unfold bind at 1, readUpload at 1.
  cbn [uploads with_dataFs]. rewrite Hu.
  destruct (dataFs w !! session_id now) as [d0|] eqn:E.
  - rewrite (write_in_dir_spec _ _ d0)
      by (unfold with_dataFs; cbn [dataFs]; rewrite E; exact E).
    unfold bind at 1, readUpload. cbn [uploads with_dataFs]. rewrite Ht.
    exists (data_json d0). js_unfold. rewrite E. now rewrite <- app_assoc.
  - rewrite (write_in_dir_spec _ _ (mkDir None None))
      by (unfold with_dataFs; cbn [dataFs]; rewrite E; apply lookup_insert_eq).
    unfold bind at 1, readUpload. cbn [uploads with_dataFs]. rewrite Ht.
    exists None. js_unfold. rewrite E, insert_insert_eq. now rewrite <- app_assoc.
Qed.

(** X2: a start request with both files readable whose credentials differ
    from the readable [creds.json] of every registered session is answered
    with 200 and the id [session_<now>]; the folder of that id then holds
    the uploaded credentials and a record with the form fields, the
    non-empty lines of the message file and the parsed delay; one immediate
    start of the id is pending; no session is registered yet and the
    uploads stay where they are. *)
Theorem send_message_accepts (req : Request) (now : Z) (w : World)
    (credsFilePath messageFilePath content text : string) :
  files_creds req = Some credsFilePath ->
  files_messageFile req = Some messageFilePath ->
  uploads w !! credsFilePath = Some content ->
  uploads w !! messageFilePath = Some text ->
  (forall id s, (id, s) ∈ activeSessions w ->
     exists c, dataFs w !! id ≫= creds_json = Some c /\ c <> content) ->
  send_message req now w
  = (Normal tt,
     mkWorld (activeSessions w) (sockets w)
       (<[session_id now := mkDir (Some content) (Some (Parsed (request_data req text)))]>
          (dataFs w))
       (uploads w) (timers w ++ [mkTimer 0 (session_id now)]) (loops w)
       (trace w ++ [Respond 200 (Text ("Session " +:+ session_id now +:+ " started."))])).
Proof.
  intros Hc Hm Hu Ht Hr.
  apply (send_message_fresh req now w credsFilePath messageFilePath content text);
    try assumption.
  now apply (isDuplicateCreds_miss credsFilePath content).
Qed.

(** The three ways a start request ends. *)
Lemma send_message_outcomes (req : Request) (now : Z) (w : World) :
  let w' := snd (send_message req now w) in
  fst (send_message req now w) = Normal tt
  /\ activeSessions w' = activeSessions w
  /\ sockets w' = sockets w
  /\ loops w' = loops w
  /\ (forall id, id <> session_id now -> dataFs w' !! id = dataFs w !! id)
  /\ (trace w' = trace w ++
        [Respond 200 (Text ("Session " +:+ session_id now +:+ " started."))]
      /\ timers w' = timers w ++ [mkTimer 0 (session_id now)]
      \/ trace w' = trace w ++ [Respond 400 duplicate_body]
         /\ timers w' = timers w /\ dataFs w' = dataFs w
      \/ exists e,
           trace w' = trace w ++ [ErrProcessing e;
                                  Respond 500 (Text "Failed to process the request.")]
           /\ timers w' = timers w).
Proof.
  cbv zeta.
  assert (Hfail : forall e,
    send_message req now w
    = (Normal tt, with_trace (fun t => t ++ [ErrProcessing e;
         Respond 500 (Text "Failed to process the request.")]) w) ->
    fst (send_message req now w) = Normal tt
    /\ activeSessions (snd (send_message req now w)) = activeSessions w
    /\ sockets (snd (send_message req now w)) = sockets w
    /\ loops (snd (send_message req now w)) = loops w
    /\ (forall id, id <> session_id now ->
          dataFs (snd (send_message req now w)) !! id = dataFs w !! id)
    /\ (trace (snd (send_message req now w)) = trace w ++
          [Respond 200 (Text ("Session " +:+ session_id now +:+ " started."))]
        /\ timers (snd (send_message req now w)) = timers w ++ [mkTimer 0 (session_id now)]
        \/ trace (snd (send_message req now w)) = trace w ++ [Respond 400 duplicate_body]
           /\ timers (snd (send_message req now w)) = timers w
           /\ dataFs (snd (send_message req now w)) = dataFs w
        \/ exists e0,
             trace (snd (send_message req now w)) = trace w ++ [ErrProcessing e0;
                Respond 500 (Text "Failed to process the request.")]
             /\ timers (snd (send_message req now w)) = timers w)).
  { intros e ->. simpl. repeat split; try reflexivity.
    right. right. exists e. split; reflexivity. }
  destruct (files_messageFile req) as [messageFilePath|] eqn:Hm.
  2:{ apply (Hfail TypeError). unfold send_message, try_catch. rewrite Hm.
      js_unfold. now rewrite <- app_assoc. }
  destruct (files_creds req) as [credsFilePath|] eqn:Hc.
  2:{ apply (Hfail TypeError). unfold send_message, try_catch. rewrite Hm, Hc.
      js_unfold. now rewrite <- app_assoc. }
  pose proof (isDuplicateCreds_state credsFilePath w) as Hst.
  destruct (isDuplicateCreds credsFilePath w) as [[b|e] w1] eqn:Hdup;
    simpl in Hst; subst w1.
  2:{ apply (Hfail e). unfold send_message, try_catch. rewrite Hm, Hc.
      unfold file_path, bind at 1 2 3, ret. rewrite Hdup.
      js_unfold. now rewrite <- app_assoc. }
  destruct (isDuplicateCreds_normal credsFilePath w b) as [content Hu];
    [now rewrite Hdup|].
  destruct b.
  - assert (H400 : send_message req now w
      = (Normal tt,
         mkWorld (activeSessions w) (sockets w) (dataFs w)
           (base.delete credsFilePath (uploads w)) (timers w) (loops w)
           (trace w ++ [Respond 400 duplicate_body]))).
    { unfold send_message, try_catch. rewrite Hm, Hc.
      unfold file_path, bind at 1 2 3, ret. rewrite Hdup.
      unfold bind, unlink. rewrite Hu. reflexivity. }
    rewrite H400. simpl. repeat split; try reflexivity.
    right. left. repeat split; reflexivity.
  - destruct (uploads w !! messageFilePath) as [text|] eqn:Ht.
    + rewrite (send_message_fresh req now w credsFilePath messageFilePath content text
                 Hc Hm Hdup Hu Ht). simpl. repeat split; try reflexivity.
      * intros id Hne. now rewrite lookup_insert_ne.
      * left. split; reflexivity.
    + destruct (send_message_fresh_unread req now w credsFilePath messageFilePath content
                  Hc Hm Hdup Hu Ht) as [d ->]. simpl. repeat split; try reflexivity.
      * intros id Hne. now rewrite lookup_insert_ne.
      * right. right. exists ENOENT. split; reflexivity.
Qed.

Lemma responses_app (tr1 tr2 : list Effect) :
  responses (tr1 ++ tr2) = responses tr1 ++ responses tr2.
Proof.
  induction tr1 as [|e r IH]; simpl; [reflexivity|].
  destruct e; simpl; now rewrite IH.
Qed.

(** X3: every start request completes, without throwing, with exactly one
    response: 200, 400 or 500.  It registers no session, makes no socket and
    starts no loop, and only the 200 answer arms a timer. *)
Theorem send_message_answers_once (req : Request) (now : Z) (w : World) :
  let w' := snd (send_message req now w) in
  fst (send_message req now w) = Normal tt
  /\ activeSessions w' = activeSessions w
  /\ sockets w' = sockets w
  /\ loops w' = loops w
  /\ exists status,
       (status = 200 \/ status = 400 \/ status = 500)
       /\ responses (trace w') = responses (trace w) ++ [status]
       /\ (status <> 200 -> timers w' = timers w)
       /\ (status = 200 -> timers w' = timers w ++ [mkTimer 0 (session_id now)]).
Proof.
  cbv zeta.
  destruct (send_message_outcomes req now w) as (Hn & Ha & Hs & Hl & _ & Hcases).
  repeat (split; [assumption|]).
  destruct Hcases as [[Htr Ht] | [(Htr & Ht & _) | (e & Htr & Ht)]].
  - exists 200. rewrite Htr, responses_app. simpl.
    repeat split; [now left | contradiction | now intros _].
  - exists 400. rewrite Htr, responses_app. simpl.
    repeat split; [right; now left | now intros _ | discriminate].
  - exists 500. rewrite Htr, responses_app. simpl.
    repeat split; [right; now right | now intros _ | discriminate].
Qed.

Lemma session_id_inj (now1 now2 : Z) : session_id now1 = session_id now2 -> now1 = now2.
Proof.
  unfold session_id. simpl. intros [= H]. now apply (inj pretty).
Qed.

(** X4: the ids of start requests at different clock values differ, and a
    start request at one clock value, however it ends, leaves the folder of
    the id of any other clock value exactly as it found it. *)
Theorem send_message_spares_other_folders (req : Request) (now other : Z) (w : World) :
  other <> now ->
  session_id other <> session_id now
  /\ dataFs (snd (send_message req now w)) !! session_id other
     = dataFs w !! session_id other.
Proof.
  intros Hne.
  assert (Hid : session_id other <> session_id now)
    by (intros H; apply Hne, session_id_inj, H).
  split; [exact Hid|].
  destruct (send_message_outcomes req now w) as (_ & _ & _ & _ & Hfs & _).
  apply Hfs, Hid.
Qed.

(** ** The send loop and the registry *)

Lemma stop_session_unregisters (w : World) (id : string) (rmdir_ok : bool) :
  JsMap.has id (activeSessions (snd (stop_session id rmdir_ok w))) = false
  /\ loops (snd (stop_session id rmdir_ok w)) = loops w.
Proof.
  destruct (JsMap.get id (activeSessions w)) as [s|] eqn:Hget.
  - rewrite (stop_session_present w id s rmdir_ok Hget). simpl.
    split; [apply JsMapFacts.has_delete | reflexivity].
  - assert (Hhas : JsMap.has id (activeSessions w) = false)
      by (unfold JsMap.has; now rewrite Hget).
    rewrite (stop_session_absent w id rmdir_ok Hhas). simpl. split; [exact Hhas | reflexivity].
Qed.

(** X5: once [/stop-session] has run for an id, a send loop of that id that
    comes back from its delay finds the id gone: it sends nothing more and
    ends, whatever the position it had reached. *)
Theorem stop_halts_send_loop (w : World) (id : string) (rmdir_ok : bool)
    (k : nat) (t : LoopTask) (outcome : SendOutcome) :
  loops w !! k = Some t ->
  sessionId (loop_socket t) = id ->
  let w' := snd (stop_session id rmdir_ok w) in
  exec (ResumeLoop k outcome) w' = with_loops (base.delete k) w'
  /\ sent_calls (trace (exec (ResumeLoop k outcome) w')) = sent_calls (trace w').
Proof.
  intros Hk Hid. cbv zeta.
  destruct (stop_session_unregisters w id rmdir_ok) as [Hhas Hloops].
  assert (H : exec (ResumeLoop k outcome) (snd (stop_session id rmdir_ok w))
              = with_loops (base.delete k) (snd (stop_session id rmdir_ok w))).
  { simpl. unfold resume_loop. rewrite Hloops, Hk.
    rewrite loop_turn_leave; [reflexivity|].
    unfold loop_condition. rewrite Hid. cbn [activeSessions with_loops].
    rewrite Hhas. apply andb_false_r. }
  split; [exact H | now rewrite H].
Qed.

Lemma stop_halts_send_loop_witness :
  loops world_A_open !! 0%nat = Some loop_A
  /\ sent_calls (trace (exec (ResumeLoop 0 Delivered)
                          (snd (stop_session "session_1" true world_A_open))))
     = sent_calls (trace (snd (stop_session "session_1" true world_A_open))).
Proof.
  assert (Hk : loops world_A_open !! 0%nat = Some loop_A) by (vm_compute; reflexivity).
  split; [exact Hk|].
  exact (proj2 (stop_halts_send_loop world_A_open "session_1" true 0 loop_A Delivered
                  Hk eq_refl)).
Defined.

Lemma loop_condition_false (s : Socket) (w : World) :
  loop_condition s w = false
  <-> messages (data s) = [] \/ JsMap.has (sessionId s) (activeSessions w) = false.
Proof.
  unfold loop_condition. rewrite andb_false_iff, negb_false_iff, Nat.eqb_eq.
  split; (intros [H|H]; [left | now right]).
  - now apply length_zero_iff_nil.
  - now rewrite H.
Qed.

(** X6: an ["open"] event on a socket whose session has no messages, or
    whose id is not registered (the session was stopped), only logs the
    connection: nothing is sent and no loop is left waiting. *)
Theorem open_without_messages_or_registration (s : Socket) (rm_ok : bool)
    (outcome : SendOutcome) (w : World) :
  messages (data s) = [] \/ JsMap.has (sessionId s) (activeSessions w) = false ->
  on_connection_update s opened rm_ok outcome w
  = (Normal tt, with_trace (fun tr => tr ++ [LogConnected (sessionId s)]) w).
Proof.
  intros H. apply loop_condition_false in H.
  unfold on_connection_update, opened, connection_is. simpl.
  unfold bind at 1 2 3, effect, modify.
  rewrite loop_turn_leave
    by (simpl; erewrite loop_condition_frame; [exact H | reflexivity]).
  reflexivity.
Qed.

Lemma open_without_messages_or_registration_witness :
  on_connection_update socket_A opened true Delivered
    (snd (stop_session "session_1" true world_A))
  = (Normal tt,
     with_trace (fun tr => tr ++ [LogConnected "session_1"])
       (snd (stop_session "session_1" true world_A))).
Proof.
  apply (open_without_messages_or_registration socket_A true Delivered).
  right. vm_compute. reflexivity.
Defined.

(** X7: the loop condition looks up the id, not the socket.  When a start
    registers a new socket under the id of a loop that is still waiting on
    an older socket, that loop goes on: its next turn sends on the old
    socket, which is no longer the registered one. *)
Theorem send_loop_outlives_its_socket (t : LoopTask) (d : SessionData)
    (outcome : SendOutcome) (w : World) :
  let id := sessionId (loop_socket t) in
  let w' := snd (startWhatsAppSession id true w) in
  fst (readData id w) = Normal d ->
  messages (data (loop_socket t)) <> [] ->
  (sock_id (loop_socket t) < length (sockets w))%nat ->
  (exists new, JsMap.get id (activeSessions w') = Some new
               /\ sock_id new <> sock_id (loop_socket t))
  /\ loop_turn t outcome w'
     = (Normal (Some (next_turn t)),
        with_trace (fun tr => tr ++ turn_effects t outcome) w')
  /\ exists text rest,
       turn_effects t outcome
       = SendMessageCall (sock_id (loop_socket t)) (loop_jid t) text :: rest.
Proof.
  cbv zeta. intros Hread Hmsgs Hold.
  rewrite (start_registers _ d w Hread). cbn [snd activeSessions].
  split; [|split].
  - eexists. split; [apply JsMapFacts.get_set_eq|]. simpl. lia.
  - apply loop_turn_go. unfold loop_condition. cbn [activeSessions].
    rewrite JsMapFacts.has_set, andb_true_r.
    destruct (messages (data (loop_socket t))); [contradiction | reflexivity].
  - unfold turn_effects, send_effects. destruct outcome; eauto.
Qed.

Lemma send_loop_outlives_its_socket_witness :
  let w := exec (ConnectionUpdate 0 (closed_with 428) true Delivered) world_A_open in
  loop_turn loop_A Delivered (snd (startWhatsAppSession "session_1" true w))
  = (Normal (Some (next_turn loop_A)),
     with_trace (fun tr => tr ++ turn_effects loop_A Delivered)
       (snd (startWhatsAppSession "session_1" true w))).
Proof.
  cbv zeta.
  refine (proj1 (proj2 (send_loop_outlives_its_socket loop_A (data socket_A) Delivered
                          (exec (ConnectionUpdate 0 (closed_with 428) true Delivered)
                             world_A_open) _ _ _))).
  - vm_compute. reflexivity.
  - discriminate.
  - vm_compute. lia.
Defined.

(** ** Order of the sends *)

Lemma run_cons (o : Op) (ops : list Op) (w : World) :
  run (o :: ops) w = run ops (exec o w).
Proof. reflexivity. Qed.

Lemma run_app (ops1 ops2 : list Op) (w : World) :
  run (ops1 ++ ops2) w = run ops2 (run ops1 w).
Proof. apply fold_left_app. Qed.

Lemma sent_calls_app (tr1 tr2 : list Effect) :
  sent_calls (tr1 ++ tr2) = sent_calls tr1 ++ sent_calls tr2.
Proof.
  induction tr1 as [|e r IH]; simpl; [reflexivity|].
  destruct e; simpl; now rewrite IH.
Qed.

Lemma sent_calls_turn (t : LoopTask) (outcome : SendOutcome) :
  sent_calls (turn_effects t outcome)
  = [(sock_id (loop_socket t), loop_jid t,
      name (data (loop_socket t)) +:+ ": "
        +:+ template (messages (data (loop_socket t)) !! loop_i t))].
Proof. unfold turn_effects, send_effects. now destruct outcome. Qed.

Lemma sent_calls_turns (outcomes : list SendOutcome) (t : LoopTask) :
  (loop_i t + length outcomes <= length (messages (data (loop_socket t))))%nat ->
  sent_calls (turns_effects t outcomes)
  = map (fun m => (sock_id (loop_socket t), loop_jid t,
                   name (data (loop_socket t)) +:+ ": " +:+ m))
      (take (length outcomes) (drop (loop_i t) (messages (data (loop_socket t))))).
Proof.
  revert t. induction outcomes as [|o r IH]; intros t Hlen; simpl.
  - reflexivity.
  - rewrite sent_calls_app, sent_calls_turn.
    destruct (messages (data (loop_socket t)) !! loop_i t) as [m|] eqn:Hm.
    2:{ apply lookup_ge_None in Hm. simpl in Hlen. lia. }
    rewrite (drop_S _ _ _ Hm). simpl.
    rewrite (IH (next_turn t)) by (simpl in *; lia).
    reflexivity.
Qed.

Lemma resumes_trace (outcomes : list SendOutcome) (t : LoopTask) (w : World) :
  loops w = [t] ->
  loop_condition (loop_socket t) w = true ->
  trace (run (map (ResumeLoop 0) outcomes) w) = trace w ++ turns_effects t outcomes.
Proof.
  revert t w. induction outcomes as [|o r IH]; intros t w Hl Hc; simpl.
  - now rewrite app_nil_r.
  - rewrite (resume_loop_go t o w Hl Hc).
    rewrite (IH (next_turn t)); [| reflexivity |].
    + simpl. now rewrite <- app_assoc.
    + simpl. erewrite loop_condition_frame; [exact Hc | reflexivity].
Qed.

Lemma open_first_turn (s : Socket) (rm_ok : bool) (outcome : SendOutcome) (w : World) :
  loop_condition s w = true ->
  let jid := targetJid_of (targetType (data s)) (targetNumber (data s)) in
  on_connection_update s opened rm_ok outcome w
  = (Normal tt,
     mkWorld (activeSessions w) (sockets w) (dataFs w) (uploads w) (timers w)
       (loops w ++ [mkLoop s jid 1])
       (trace w ++ LogConnected (sessionId s) :: turn_effects (mkLoop s jid 0) outcome)).
Proof.
  intros Hc. unfold on_connection_update, opened, connection_is. simpl.
  unfold bind at 1 2 3, effect, modify.
  rewrite loop_turn_go by (simpl; erewrite loop_condition_frame; [exact Hc | reflexivity]).
  js_unfold. now rewrite <- app_assoc.
Qed.

(** X8: when a socket opens for a registered session and nothing else
    happens in between, the first turns of the loop, as many as there are
    messages, call [socket.sendMessage] on that socket with the session's
    address and with [name: message] for the messages in the order of the
    record, one call each, whether the individual sends are delivered or
    fail. *)
Theorem send_loop_in_order (k : nat) (s : Socket) (rm_ok : bool)
    (first : SendOutcome) (others : list SendOutcome) (w : World) :
  loops w = [] ->
  sockets w !! k = Some s ->
  loop_condition s w = true ->
  (S (length others) <= length (messages (data s)))%nat ->
  let w' := run (ConnectionUpdate k opened rm_ok first :: map (ResumeLoop 0) others) w in
  sent_calls (trace w')
  = sent_calls (trace w)
    ++ map (fun m => (sock_id s,
                      targetJid_of (targetType (data s)) (targetNumber (data s)),
                      name (data s) +:+ ": " +:+ m))
         (take (S (length others)) (messages (data s))).
Proof.
  intros Hl Hk Hc Hlen. cbv zeta. rewrite run_cons. cbn [exec]. rewrite Hk.
  rewrite (open_first_turn s rm_ok first w Hc). cbn [snd].
  match goal with |- context [run _ ?x] => remember x as w1 eqn:Hw1 end.
  set (jid := targetJid_of (targetType (data s)) (targetNumber (data s))) in *.
  rewrite (resumes_trace others (mkLoop s jid 1) w1).
  - subst w1. cbn [trace].
    change (LogConnected (sessionId s) :: turn_effects (mkLoop s jid 0) first)
      with ([LogConnected (sessionId s)] ++ turn_effects (mkLoop s jid 0) first).
    rewrite <- !app_assoc, !sent_calls_app. simpl sent_calls at 2.
    rewrite <- sent_calls_app.
    change (turn_effects (mkLoop s jid 0) first ++ turns_effects (mkLoop s jid 1) others)
      with (turns_effects (mkLoop s jid 0) (first :: others)).
    rewrite sent_calls_turns by (simpl; lia).
    reflexivity.
  - subst w1. cbn [loops]. now rewrite Hl.
  - subst w1. simpl. erewrite loop_condition_frame; [exact Hc | reflexivity].
Qed.

Lemma send_loop_in_order_witness :
  sent_calls (trace (run [ConnectionUpdate 0 opened true Delivered;
                          ResumeLoop 0 DeliveryFails] world_A))
  = sent_calls (trace world_A)
    ++ [(0%nat, "123@s.whatsapp.net", "ann: a"); (0%nat, "123@s.whatsapp.net", "ann: b")].
Proof.
  apply (send_loop_in_order 0 socket_A true Delivered [DeliveryFails] world_A).
  - vm_compute. reflexivity.
  - vm_compute. reflexivity.
  - vm_compute. reflexivity.
  - simpl. lia.
Defined.

(** ** Starts *)

Lemma start_transport_failure (id : string) (d : SessionData) (w : World) :
  fst (readData id w) = Normal d ->
  startWhatsAppSession id false w
  = (Normal tt,
     mkWorld (activeSessions w) (sockets w) (dataFs w) (uploads w)
       (timers w ++ [mkTimer 60000 id]) (loops w)
       (trace w ++ [ErrInSession id TransportError])).
Proof.
  unfold startWhatsAppSession, try_catch, bind at 1, readData.
  destruct (dataFs w !! id ≫= data_json) as [[|d']|]; simpl; try discriminate.
  intros _. reflexivity.
Qed.

(** X9: a start, from the timer or the immediate that runs it, never
    throws and ends in exactly one of two ways.  Either the record was read
    and the transport opened: a new socket, numbered after the sockets made
    so far, is registered under the id and no timer is armed.  Or one of
    the two failed: nothing is registered, the failure is logged and exactly
    one retry is armed, 60000 ms ahead.  The disk is left alone. *)
Theorem start_registers_or_retries (id : string) (transport_ok : bool) (w : World) :
  let w' := snd (safeStartWhatsAppSession id transport_ok w) in
  fst (safeStartWhatsAppSession id transport_ok w) = Normal tt
  /\ dataFs w' = dataFs w /\ uploads w' = uploads w /\ loops w' = loops w
  /\ ((exists d,
         fst (readData id w) = Normal d /\ transport_ok = true
         /\ activeSessions w'
            = JsMap.set id (mkSocket (length (sockets w)) id d) (activeSessions w)
         /\ sockets w' = sockets w ++ [mkSocket (length (sockets w)) id d]
         /\ timers w' = timers w /\ trace w' = trace w)
      \/ (exists e,
            (fst (readData id w) = Throw e
             \/ (exists d, fst (readData id w) = Normal d)
                /\ transport_ok = false /\ e = TransportError)
            /\ activeSessions w' = activeSessions w /\ sockets w' = sockets w
            /\ timers w' = timers w ++ [mkTimer 60000 id]
            /\ trace w' = trace w ++ [ErrInSession id e])).
Proof.
  cbv zeta. rewrite safeStart_is_start.
  destruct (fst (readData id w)) as [d|e] eqn:Hread.
  - destruct transport_ok.
    + rewrite (start_registers id d w Hread). simpl.
      repeat split; try reflexivity. left. exists d. repeat split; reflexivity.
    + rewrite (start_transport_failure id d w Hread). simpl.
      repeat split; try reflexivity. right. exists TransportError.
      repeat split; try reflexivity. right. repeat split; eauto.
  - rewrite (start_load_failure id e transport_ok w Hread). simpl.
    repeat split; try reflexivity. right. exists e.
    repeat split; try reflexivity. now left.
Qed.

(** ** Sockets, handles and loops *)

Section FrameCore.
Context {A B : Type}.

Lemma core_ret (a : A) : keeps_core (ret a).
Proof. intros w. reflexivity. Qed.

Lemma core_throw (e : Error) : keeps_core (@throw A e).
Proof. intros w. reflexivity. Qed.

Lemma core_gets (f : World -> A) : keeps_core (gets f).
Proof. intros w. reflexivity. Qed.

Lemma core_bind (c : JS A) (k : A -> JS B) :
  keeps_core c -> (forall a, keeps_core (k a)) -> keeps_core (bind c k).
Proof.
  intros Hc Hk w. unfold bind. specialize (Hc w).
  destruct (c w) as [[a|e] w1]; simpl in *; [|exact Hc].
  now rewrite Hk.
Qed.

Lemma core_try_catch (c : JS A) (h : Error -> JS A) :
  keeps_core c -> (forall e, keeps_core (h e)) -> keeps_core (try_catch c h).
Proof.
  intros Hc Hh w. unfold try_catch. specialize (Hc w).
  destruct (c w) as [[a|e] w1]; simpl in *; [exact Hc|].
  now rewrite Hh.
Qed.
End FrameCore.

Lemma core_effect (e : Effect) : keeps_core (effect e).
Proof. intros w. reflexivity. Qed.

Lemma core_setTimeout (id : string) (ms : Z) : keeps_core (setTimeout id ms).
Proof. intros w. reflexivity. Qed.

Lemma core_readUpload (p : string) : keeps_core (readUpload p).
Proof. intros w. unfold readUpload. now destruct (uploads w !! p). Qed.

Lemma core_unlink (p : string) : keeps_core (unlink p).
Proof. intros w. unfold unlink. now destruct (uploads w !! p). Qed.

Lemma core_mkdir (id : string) : keeps_core (mkdir id).
Proof. intros w. reflexivity. Qed.

Lemma core_rm_recursive (id : string) (ok : bool) : keeps_core (rm_recursive id ok).
Proof. intros w. now destruct ok. Qed.

Lemma core_write_in_dir (id : string) (f : SessionDir -> SessionDir) :
  keeps_core (write_in_dir id f).
Proof. intros w. unfold write_in_dir. now destruct (dataFs w !! id). Qed.

Lemma core_file_path (f : option string) : keeps_core (file_path f).
Proof. destruct f; [apply core_ret | apply core_throw]. Qed.

Lemma core_isDuplicateCreds (p : string) : keeps_core (isDuplicateCreds p).
Proof. intros w. now rewrite isDuplicateCreds_state. Qed.

Lemma core_scan_sessions (h : string) (entries : list (string * Socket)) :
  keeps_core (scan_sessions h entries).
Proof. intros w. now rewrite scan_sessions_state. Qed.

#[local] Hint Resolve core_ret core_throw core_gets core_effect core_setTimeout
  core_readUpload core_unlink core_mkdir core_rm_recursive core_write_in_dir
  core_file_path core_isDuplicateCreds core_scan_sessions : frame.

Ltac frame_core :=
  repeat first
    [ apply core_bind; [|intros ?]
    | apply core_try_catch; [|intros ?]
    | progress auto with frame
    | match goal with
      | |- keeps_core (if ?b then _ else _) => destruct b
      | |- keeps_core (match ?o with Some _ => _ | None => _ end) => destruct o
      end ].

Lemma core_send_message (req : Request) (now : Z) : keeps_core (send_message req now).
Proof.
  unfold send_message, createSessionFolder, copyFile_creds, writeFile_data, setImmediate.
  frame_core.
Qed.

Lemma core_handleSessionClosure (id : string) ld (rm_ok : bool) :
  keeps_core (handleSessionClosure id ld rm_ok).
Proof. unfold handleSessionClosure. frame_core. Qed.

Lemma core_loop_turn (t : LoopTask) (outcome : SendOutcome) :
  keeps_core (loop_turn t outcome).
Proof.
  intros w. destruct (loop_condition (loop_socket t) w) eqn:Hc.
  - now rewrite loop_turn_go.
  - now rewrite loop_turn_leave.
Qed.

Lemma loop_turn_socket (t t' : LoopTask) (outcome : SendOutcome) (w w' : World) :
  loop_turn t outcome w = (Normal (Some t'), w') -> loop_socket t' = loop_socket t.
Proof.
  destruct (loop_condition (loop_socket t) w) eqn:Hc.
  - rewrite loop_turn_go by assumption. now intros [= <- _].
  - rewrite loop_turn_leave by assumption. discriminate.
Qed.

(** What a ["connection.update"] event does to sockets, handles and loops:
    at most one loop, on the socket of the event, is added. *)
Lemma on_connection_update_core (s : Socket) (u : Update) (rm_ok : bool)
    (outcome : SendOutcome) (w : World) :
  let w' := snd (on_connection_update s u rm_ok outcome w) in
  activeSessions w' = activeSessions w /\ sockets w' = sockets w
  /\ (loops w' = loops w \/ exists t, loop_socket t = s /\ loops w' = loops w ++ [t]).
Proof.
  cbv zeta. unfold on_connection_update.
  match goal with |- context [bind ?c ?k] => set (open_part := c); set (close_part := k) end.
  assert (Hclose : forall x w0, core (snd (close_part x w0)) = core w0).
  { intros x w0. subst close_part. cbv beta.
    destruct (connection_is u "close");
      [apply core_handleSessionClosure | reflexivity]. }
  assert (Hopen : forall w0,
    activeSessions (snd (open_part w0)) = activeSessions w0
    /\ sockets (snd (open_part w0)) = sockets w0
    /\ (loops (snd (open_part w0)) = loops w0
        \/ exists t, loop_socket t = s /\ loops (snd (open_part w0)) = loops w0 ++ [t])).
  { intros w0. subst open_part. destruct (connection_is u "open").
    - unfold bind, effect, modify.
      match goal with |- context [loop_turn ?t ?o ?w1] =>
        pose proof (core_loop_turn t o w1) as Hcore;
        pose proof (loop_turn_socket t) as Hsock;
        destruct (loop_turn t o w1) as [[[t'|]|e] w2] eqn:Hturn
      end; unfold core in Hcore; cbn in Hcore; injection Hcore as H1 H2 H3; cbn.
      + specialize (Hsock t' _ _ _ Hturn). cbn in Hsock.
        rewrite H1, H2, H3. repeat split. right. eauto.
      + rewrite H1, H2, H3. repeat split. now left.
      + rewrite H1, H2, H3. repeat split. now left.
    - cbn. repeat split. now left. }
  unfold bind. specialize (Hopen w).
  destruct (open_part w) as [[x|e] w1]; cbn [snd] in *; [|exact Hopen].
  specialize (Hclose x w1). unfold core in Hclose. injection Hclose as H4 H5 H6.
  rewrite H4, H5, H6. exact Hopen.
Qed.

Lemma consistent_core (w w' : World) :
  core w' = core w -> consistent w -> consistent w'.
Proof.
  unfold core, consistent. intros [= Ha Hs Hl]. now rewrite Ha, Hs, Hl.
Qed.

Lemma get_delete_Some {V} (m : list (string * V)) (k k' : string) (v : V) :
  JsMap.get k' (JsMap.delete k m) = Some v -> JsMap.get k' m = Some v.
Proof.
  destruct (String.eqb_spec k k') as [->|Hne].
  - now rewrite JsMapFacts.get_delete_eq.
  - now rewrite JsMapFacts.get_delete_ne.
Qed.

Lemma stop_consistent (id : string) (rmdir_ok : bool) (w : World) :
  consistent w -> consistent (snd (stop_session id rmdir_ok w)).
Proof.
  intros (H1 & H2 & H3).
  destruct (JsMap.get id (activeSessions w)) as [s|] eqn:Hget.
  - rewrite (stop_session_present w id s rmdir_ok Hget).
    unfold consistent. cbn [snd sockets activeSessions loops].
    split; [exact H1|]. split; [|exact H3].
    intros id' s' Hs'. apply H2. eapply get_delete_Some, Hs'.
  - rewrite stop_session_absent by (unfold JsMap.has; now rewrite Hget).
    now apply (consistent_core w).
Qed.

Lemma start_consistent (id : string) (transport_ok : bool) (w : World) :
  consistent w -> consistent (snd (startWhatsAppSession id transport_ok w)).
Proof.
  intros (H1 & H2 & H3).
  destruct (fst (readData id w)) as [d|e] eqn:Hread.
  2:{ rewrite (start_load_failure id e transport_ok w Hread).
      now apply (consistent_core w). }
  destruct transport_ok.
  2:{ rewrite (start_transport_failure id d w Hread). now apply (consistent_core w). }
  rewrite (start_registers id d w Hread).
  unfold consistent. cbn [snd sockets activeSessions loops].
  set (new := mkSocket (length (sockets w)) id d).
  assert (Hnew : (sockets w ++ [new]) !! sock_id new = Some new)
    by (apply list_lookup_middle; reflexivity).
  split; [|split].
  - intros k s Hk. apply lookup_app_Some in Hk as [Hk|[Hge Hk]].
    + now apply H1.
    + apply list_lookup_singleton_Some in Hk as [Hk <-]. simpl. lia.
  - intros id' s Hs. destruct (String.eqb_spec id id') as [<-|Hne].
    + rewrite JsMapFacts.get_set_eq in Hs. injection Hs as <-.
      split; [reflexivity | exact Hnew].
    + rewrite JsMapFacts.get_set_ne in Hs by assumption.
      destruct (H2 id' s Hs) as [Hid Hk]. split; [exact Hid|].
      now apply lookup_app_l_Some.
  - eapply Forall_impl; [exact H3|]. intros t Ht. now apply lookup_app_l_Some.
Qed.

Lemma exec_consistent (o : Op) (w : World) : consistent w -> consistent (exec o w).
Proof.
  intros Hw. destruct o as [p c|req now|id ok| |k u rm_ok outcome|k outcome|k ok]; simpl.
  - now apply (consistent_core w).
  - apply (consistent_core w); [apply core_send_message | exact Hw].
  - now apply stop_consistent.
  - now apply (consistent_core w).
  - destruct (sockets w !! k) as [s|] eqn:Hk; [|exact Hw].
    destruct Hw as (H1 & H2 & H3).
    destruct (on_connection_update_core s u rm_ok outcome w) as (Ha & Hs & Hl).
    unfold consistent. rewrite Ha, Hs. split; [exact H1|]. split; [exact H2|].
    destruct Hl as [-> | (t & Ht & ->)]; [exact H3|].
    apply Forall_app. split; [exact H3|]. apply Forall_singleton.
    rewrite Ht, (H1 k s Hk). exact Hk.
  - unfold resume_loop. destruct (loops w !! k) as [t|] eqn:Hk; [|exact Hw].
    destruct Hw as (H1 & H2 & H3).
    pose proof (core_loop_turn t outcome (with_loops (base.delete k) w)) as Hcore.
    pose proof (loop_turn_socket t) as Hsock.
    assert (Hdel : Forall (fun t0 => sockets w !! sock_id (loop_socket t0)
                                     = Some (loop_socket t0)) (base.delete k (loops w)))
      by now apply Forall_delete.
    destruct (loop_turn t outcome (with_loops (base.delete k) w)) as [[[t'|]|e] w1] eqn:Hturn;
      unfold core in Hcore; cbn in Hcore; injection Hcore as Ha Hs Hl;
      unfold consistent; cbn; rewrite ?Ha, ?Hs, ?Hl;
      (split; [exact H1|]); (split; [exact H2|]); try exact Hdel.
    apply Forall_app. split; [exact Hdel|]. apply Forall_singleton.
    rewrite (Hsock t' _ _ _ Hturn).
    exact (proj1 (Forall_lookup _ _) H3 k t Hk).
  - unfold fire_timer. destruct (timers w !! k) as [t|]; [|exact Hw].
    rewrite safeStart_is_start. apply start_consistent.
    now apply (consistent_core w).
Qed.

(** X10: in every world the event loop reaches from [boot], the sockets are
    numbered in the order they were made, every registered handle is one of
    them and is registered under the very id its listener has captured (so
    no socket is registered under two ids), and every waiting send loop
    belongs to one of them. *)
Theorem reachable_worlds_are_consistent (ops : list Op) :
  let w := run ops boot in
  consistent w
  /\ (forall id1 id2 s,
        JsMap.get id1 (activeSessions w) = Some s ->
        JsMap.get id2 (activeSessions w) = Some s -> id1 = id2)
  /\ (forall id s, JsMap.get id (activeSessions w) = Some s ->
        (sock_id s < length (sockets w))%nat)
  /\ Forall (fun t => (sock_id (loop_socket t) < length (sockets w))%nat) (loops w).
Proof.
  cbv zeta.
  assert (H : consistent (run ops boot)).
  { assert (Hgen : forall w, consistent w -> consistent (run ops w)).
    { induction ops as [|o r IH]; intros w Hw; [exact Hw|].
      rewrite run_cons. apply IH, exec_consistent, Hw. }
    apply Hgen. unfold consistent, boot. cbn.
    repeat split; try discriminate. apply Forall_nil. exact I. }
  split; [exact H|]. destruct H as (H1 & H2 & H3). split; [|split].
  - intros id1 id2 s Hs1 Hs2.
    destruct (H2 id1 s Hs1) as [<- _]. destruct (H2 id2 s Hs2) as [<- _]. reflexivity.
  - intros id s Hs. destruct (H2 id s Hs) as [_ Hk].
    now apply lookup_lt_Some in Hk.
  - eapply Forall_impl; [exact H3|]. intros t Ht. now apply lookup_lt_Some in Ht.
Qed.

Lemma has_keys {V} (m : list (string * V)) (k : string) :
  JsMap.has k m = true <-> k ∈ JsMap.keys m.
Proof.
  unfold JsMap.has, JsMap.keys. induction m as [|[k' v'] r IH]; simpl.
  - split; [discriminate | intros H; apply elem_of_nil in H; contradiction].
  - rewrite elem_of_cons. destruct (String.eqb_spec k' k) as [->|Hne].
    + split; [now left | reflexivity].
    + rewrite IH. split; [now right | intros [->|H]; [contradiction | exact H]].
Qed.

(** X11: in every world the event loop reaches from [boot], [GET /sessions]
    answers 200 with a list that holds every registered id exactly once and
    nothing else, and changes nothing but the trace. *)
Theorem get_sessions_lists_registered_once (ops : list Op) :
  let w := run ops boot in
  exists ids,
    exec GetSessions w = with_trace (fun tr => tr ++ [Respond 200 (Ids ids)]) w
    /\ NoDup ids
    /\ forall id, id ∈ ids <-> JsMap.has id (activeSessions w) = true.
Proof.
  cbv zeta. exists (JsMap.keys (activeSessions (run ops boot))).
  split; [reflexivity|]. split.
  - apply run_NoDup. simpl. apply NoDup_nil. exact I.
  - intros id. symmetry. apply has_keys.
Qed.

(** ** The message file and the delay field *)

Lemma split_lines_nonempty (s : string) : split_lines s <> [].
Proof.
  destruct s as [|c r]; simpl; [discriminate|].
  destruct (Ascii.eqb c LF); [discriminate|].
  destruct (split_lines r); discriminate.
Qed.

Lemma split_lines_one_line (s : string) : one_line s = true -> split_lines s = [s].
Proof.
  induction s as [|c r IH]; simpl; [reflexivity|].
  intros H. apply andb_true_iff in H as [Hc Hr].
  apply negb_true_iff in Hc. rewrite Hc, (IH Hr). reflexivity.
Qed.

Lemma split_lines_line (l r : string) :
  one_line l = true -> split_lines (l +:+ String LF r) = l :: split_lines r.
Proof.
  induction l as [|c l' IH]; simpl.
  - intros _. reflexivity.
  - intros H. apply andb_true_iff in H as [Hc Hl].
    apply negb_true_iff in Hc. rewrite Hc, (IH Hl). reflexivity.
Qed.

Lemma split_join_lines (lines : list string) :
  lines <> [] ->
  Forall (fun l => one_line l = true) lines ->
  split_lines (join_lines lines) = lines.
Proof.
  induction lines as [|l rest IH]; [contradiction|].
  intros _ Hall. apply Forall_cons in Hall as [Hl Hrest].
  destruct rest as [|l' rest'].
  - simpl. now apply split_lines_one_line.
  - change (join_lines (l :: l' :: rest')) with (l +:+ String LF (join_lines (l' :: rest'))).
    rewrite (split_lines_line _ _ Hl), IH; [reflexivity | discriminate | exact Hrest].
Qed.

Lemma filter_Boolean_all (lines : list string) :
  Forall (fun l => l <> "") lines -> filter_Boolean lines = lines.
Proof.
  unfold filter_Boolean. induction 1 as [|l rest Hl _ IH]; [reflexivity|].
  simpl. apply String.eqb_neq in Hl. rewrite Hl. simpl. now rewrite IH.
Qed.

(** X12: a message file made of lines separated by line feeds is read back
    as those lines, in order, without the empty ones (blank lines and the
    empty line after a final line feed are dropped); when no line is empty
    the messages are exactly the lines.  No message is empty and none holds
    a line feed. *)
Theorem messages_are_the_nonempty_lines (lines : list string) :
  Forall (fun l => one_line l = true) lines ->
  filter_Boolean (split_lines (join_lines lines)) = filter_Boolean lines
  /\ (Forall (fun l => l <> "") lines ->
      filter_Boolean (split_lines (join_lines lines)) = lines)
  /\ Forall (fun m => m <> "" /\ one_line m = true)
       (filter_Boolean (split_lines (join_lines lines))).
Proof.
  intros Hall.
  assert (H1 : filter_Boolean (split_lines (join_lines lines)) = filter_Boolean lines).
  { destruct lines as [|l rest]; [reflexivity|].
    now rewrite split_join_lines. }
  split; [exact H1|]. rewrite H1. split.
  - apply filter_Boolean_all.
  - unfold filter_Boolean. apply Forall_forall. intros m Hm.
    apply list_elem_of_In, filter_In in Hm as [Hin Hb].
    split.
    + apply negb_true_iff, String.eqb_neq in Hb. exact Hb.
    + apply list_elem_of_In in Hin. exact (proj1 (Forall_forall _ _) Hall m Hin).
Qed.

Lemma messages_are_the_nonempty_lines_witness :
  filter_Boolean (split_lines (join_lines ["a"; ""; "b"; ""])) = ["a"; "b"]
  /\ filter_Boolean (split_lines (join_lines ["a"; "b"])) = ["a"; "b"].
Proof.
  split.
  - refine (proj1 (messages_are_the_nonempty_lines ["a"; ""; "b"; ""] _)).
    repeat constructor.
  - refine (proj1 (proj2 (messages_are_the_nonempty_lines ["a"; "b"] _)) _).
    + repeat constructor.
    + repeat constructor; discriminate.
Defined.







(** ** The start-up scan *)

Lemma autoStart_scan_all (entries : list (string * option bool)) (w : World) :
  all_stat entries ->
  autoStart_scan entries w
  = (Normal (map AutoStarting (directories entries)),
     mkWorld (activeSessions w) (sockets w) (dataFs w) (uploads w)
       (timers w ++ map (mkTimer 0) (directories entries)) (loops w) (trace w)).
Proof.
  unfold all_stat, directories. revert w.
  induction entries as [|[folder [[]|]] rest IH]; intros w Hall; simpl.
  - rewrite app_nil_r. now destruct w.
  - apply Forall_cons in Hall as [_ Hall].
    unfold bind at 1, setImmediate, setTimeout, modify. unfold bind at 1.
    rewrite (IH _ Hall). simpl. now rewrite <- app_assoc.
  - apply Forall_cons in Hall as [_ Hall]. exact (IH w Hall).
  - apply Forall_cons in Hall as [Hnone _]. now contradiction Hnone.
Qed.

Lemma autoStart_scan_cut (before : list (string * option bool)) (folder : string)
    (after : list (string * option bool)) (w : World) :
  all_stat before ->
  autoStart_scan (before ++ (folder, None) :: after) w
  = (Normal (map AutoStarting (directories before) ++ [WarnAutoStart ENOENT]),
     mkWorld (activeSessions w) (sockets w) (dataFs w) (uploads w)
       (timers w ++ map (mkTimer 0) (directories before)) (loops w) (trace w)).
Proof.
  unfold all_stat, directories. revert w.
  induction before as [|[f [[]|]] rest IH]; intros w Hall; simpl.
  - rewrite app_nil_r. now destruct w.
  - apply Forall_cons in Hall as [_ Hall].
    unfold bind at 1, setImmediate, setTimeout, modify. unfold bind at 1.
    rewrite (IH _ Hall). simpl. now rewrite <- app_assoc.
  - apply Forall_cons in Hall as [_ Hall]. exact (IH w Hall).
  - apply Forall_cons in Hall as [Hnone _]. now contradiction Hnone.
Qed.

(** X14: [autoStartSessions] arms one immediate start, in listing order,
    for each entry of [data/] that is a directory, and none for a plain
    file; it registers nothing and touches neither the disk nor the trace.
    When [lstat] throws on an entry the scan stops with a warning: the
    directories listed before that entry are armed, those after it are not.
    When [readdir] throws nothing is armed. *)
Theorem autoStartSessions_arms_directories (w : World) :
  (forall entries,
     all_stat entries ->
     autoStartSessions (Some entries) w
     = (Normal (map AutoStarting (directories entries)),
        mkWorld (activeSessions w) (sockets w) (dataFs w) (uploads w)
          (timers w ++ map (mkTimer 0) (directories entries)) (loops w) (trace w)))
  /\ (forall before folder after,
        all_stat before ->
        autoStartSessions (Some (before ++ (folder, None) :: after)) w
        = (Normal (map AutoStarting (directories before) ++ [WarnAutoStart ENOENT]),
           mkWorld (activeSessions w) (sockets w) (dataFs w) (uploads w)
             (timers w ++ map (mkTimer 0) (directories before)) (loops w) (trace w)))
  /\ autoStartSessions None w = (Normal [WarnAutoStart ENOENT], w).
Proof.
  split; [|split].
  - intros entries Hall. now apply autoStart_scan_all.
  - intros before folder after Hall. now apply autoStart_scan_cut.
  - reflexivity.
Qed.

Lemma autoStartSessions_arms_directories_witness :
  timers (snd (autoStartSessions
                 (Some [("session_1", Some true); ("notes.txt", Some false);
                        ("session_2", None); ("session_3", Some true)]) world_A))
  = timers world_A ++ [mkTimer 0 "session_1"].
Proof.
  refine (f_equal (fun r => timers (snd r))
            (proj1 (proj2 (autoStartSessions_arms_directories world_A))
               [("session_1", Some true); ("notes.txt", Some false)]
               "session_2" [("session_3", Some true)] _)).
  repeat constructor; discriminate.
Defined.





(** ** From the request to the first send *)

Lemma elem_of_has {V} (m : list (string * V)) (k : string) (v : V) :
  (k, v) ∈ m -> JsMap.has k m = true.
Proof.
  intros H. apply has_keys. unfold JsMap.keys.
  apply list_elem_of_fmap. exists (k, v). split; [reflexivity | exact H].
Qed.

(** X16: an accepted start request, the immediate it has armed and the
    ["open"] event of the socket that immediate has made, in this order and
    with a transport that opens: the session is registered under
    [session_<now>] and the socket is called once, with the address formed
    from the form's target type and number and with the form's name, a
    colon and the first non-empty line of the message file; the pause that
    follows is the parsed delay times 1000. *)
Theorem accepted_session_sends_first_message (req : Request) (now : Z) (w : World)
    (credsFilePath messageFilePath content text first : string)
    (others : list string) (rm_ok : bool) :
  files_creds req = Some credsFilePath ->
  files_messageFile req = Some messageFilePath ->
  uploads w !! credsFilePath = Some content ->
  uploads w !! messageFilePath = Some text ->
  (forall id s, (id, s) ∈ activeSessions w ->
     exists c, dataFs w !! id ≫= creds_json = Some c /\ c <> content) ->
  filter_Boolean (split_lines text) = first :: others ->
  let id := session_id now in
  let socket := mkSocket (length (sockets w)) id (request_data req text) in
  let jid := targetJid_of (body_targetType req) (body_targetNumber req) in
  let said := body_name req +:+ ": " +:+ first in
  let w' := run [PostSendMessage req now;
                 FireTimer (length (timers w)) true;
                 ConnectionUpdate (length (sockets w)) opened rm_ok Delivered] w in
  JsMap.get id (activeSessions w') = Some socket
  /\ trace w' = trace w ++
       [Respond 200 (Text ("Session " +:+ id +:+ " started."));
        LogConnected id;
        SendMessageCall (length (sockets w)) jid said;
        LogSent 1 jid said;
        Delay (delay_ms (parseInt (body_delayTime req)))]
  /\ loops w' = loops w ++ [mkLoop socket jid 1]
  /\ timers w' = timers w.
Proof.
  intros Hc Hm Hu Ht Hr Hfirst. cbv zeta.
  rewrite !run_cons. cbn [run fold_left]. cbn [exec].
  rewrite (send_message_fresh req now w credsFilePath messageFilePath content text
             Hc Hm (isDuplicateCreds_miss credsFilePath content w Hu Hr) Hu Ht).
  cbn [snd]. unfold fire_timer. cbn [timers].
  rewrite (list_lookup_middle (timers w) [] _ (length (timers w)) eq_refl).
  cbn [timer_session]. rewrite safeStart_is_start.
  rewrite (start_registers (session_id now) (request_data req text))
    by (unfold readData; cbn [dataFs with_timers]; now rewrite lookup_insert_eq).
  cbn [snd sockets activeSessions dataFs uploads timers loops trace with_timers].
  rewrite (list_lookup_middle (sockets w) [] _ (length (sockets w)) eq_refl).
  rewrite delete_middle, app_nil_r.
  rewrite open_first_turn.
  - cbn [snd activeSessions trace loops timers data targetType targetNumber
         request_data sessionId].
    split; [apply JsMapFacts.get_set_eq|]. split; [|split; reflexivity].
    unfold turn_effects, send_effects.
    cbn [loop_socket loop_jid loop_i data name messages delayTime request_data sock_id].
    rewrite Hfirst. cbn. rewrite <- app_assoc. reflexivity.
  - unfold loop_condition.
    cbn [data messages request_data sessionId activeSessions].
    rewrite Hfirst, JsMapFacts.has_set. reflexivity.
Qed.

(** X17: the duplicate check only looks at registered sessions.  A second
    start request with the same credentials that arrives before the
    immediate of the first has run is accepted as well: both get 200, each
    has its folder with those credentials, and two immediates are pending. *)
Theorem duplicate_check_misses_pending_session (req1 req2 : Request) (now1 now2 : Z)
    (w : World) (credsFilePath messages1 messages2 content text1 text2 : string) :
  files_creds req1 = Some credsFilePath ->
  files_creds req2 = Some credsFilePath ->
  files_messageFile req1 = Some messages1 ->
  files_messageFile req2 = Some messages2 ->
  uploads w !! credsFilePath = Some content ->
  uploads w !! messages1 = Some text1 ->
  uploads w !! messages2 = Some text2 ->
  (forall id s, (id, s) ∈ activeSessions w ->
     exists c, dataFs w !! id ≫= creds_json = Some c /\ c <> content) ->
  JsMap.has (session_id now1) (activeSessions w) = false ->
  now1 <> now2 ->
  let w' := run [PostSendMessage req1 now1; PostSendMessage req2 now2] w in
  responses (trace w') = responses (trace w) ++ [200; 200]
  /\ dataFs w' !! session_id now1 ≫= creds_json = Some content
  /\ dataFs w' !! session_id now2 ≫= creds_json = Some content
  /\ timers w' = timers w ++ [mkTimer 0 (session_id now1); mkTimer 0 (session_id now2)]
  /\ activeSessions w' = activeSessions w.
Proof.
  intros Hc1 Hc2 Hm1 Hm2 Hu Ht1 Ht2 Hr Hfree Hne. cbv zeta.
  rewrite !run_cons. cbn [run fold_left]. cbn [exec].
  rewrite (send_message_fresh req1 now1 w credsFilePath messages1 content text1
             Hc1 Hm1 (isDuplicateCreds_miss credsFilePath content w Hu Hr) Hu Ht1).
  cbn [snd].
  match goal with |- context [send_message req2 now2 ?x] => remember x as w1 eqn:Hw1 end.
  assert (Hu1 : uploads w1 !! credsFilePath = Some content) by now subst w1.
  assert (Ht21 : uploads w1 !! messages2 = Some text2) by now subst w1.
  assert (Hr1 : forall id s, (id, s) ∈ activeSessions w1 ->
            exists c, dataFs w1 !! id ≫= creds_json = Some c /\ c <> content).
  { subst w1. cbn [activeSessions dataFs]. intros id s Hin.
    rewrite lookup_insert_ne; [now apply (Hr id s)|].
    intros <-. apply elem_of_has in Hin. congruence. }
  rewrite (send_message_fresh req2 now2 w1 credsFilePath messages2 content text2
             Hc2 Hm2 (isDuplicateCreds_miss credsFilePath content w1 Hu1 Hr1) Hu1 Ht21).
  subst w1. cbn [snd trace dataFs timers activeSessions].
  assert (Hids : session_id now2 <> session_id now1)
    by (intros H; apply Hne; symmetry; now apply session_id_inj).
  repeat split.
  - rewrite <- !app_assoc, !responses_app. reflexivity.
  - rewrite lookup_insert_ne by exact Hids. now rewrite lookup_insert_eq.
  - now rewrite lookup_insert_eq.
  - now rewrite <- app_assoc.
Qed.

(** X18: [/stop-session] for one id leaves every other registered session
    with its handle and every other folder with its files; it makes no
    socket, starts and ends no loop and arms no timer. *)
Theorem stop_spares_other_sessions (w : World) (id other : string) (rmdir_ok : bool) :
  other <> id ->
  let w' := snd (stop_session id rmdir_ok w) in
  JsMap.get other (activeSessions w') = JsMap.get other (activeSessions w)
  /\ dataFs w' !! other = dataFs w !! other
  /\ sockets w' = sockets w /\ loops w' = loops w /\ timers w' = timers w
  /\ uploads w' = uploads w.
Proof.
  intros Hne. cbv zeta.
  destruct (JsMap.get id (activeSessions w)) as [s|] eqn:Hget.
  - rewrite (stop_session_present w id s rmdir_ok Hget).
    cbn [snd activeSessions dataFs sockets loops timers uploads].
    repeat split.
    + apply JsMapFacts.get_delete_ne. congruence.
    + destruct rmdir_ok; [|reflexivity]. apply lookup_delete_ne. congruence.
  - rewrite stop_session_absent by (unfold JsMap.has; now rewrite Hget).
    repeat split; reflexivity.
Qed.

(** ** Closures and repeated opens against a running loop *)

(** X19: a ["close"] event, whatever its reason, ends no send loop: the id
    stays registered, so a loop that was running takes its next turn and
    calls [socket.sendMessage] again. *)
Theorem closure_does_not_stop_send_loop (s : Socket) (ld : option LastDisconnect)
    (rm_ok : bool) (o o' : SendOutcome) (t : LoopTask) (w : World) :
  loop_condition (loop_socket t) w = true ->
  let w' := snd (on_connection_update s (mkUpdate (Some "close") ld) rm_ok o w) in
  loops w' = loops w
  /\ loop_turn t o' w'
     = (Normal (Some (next_turn t)), with_trace (fun tr => tr ++ turn_effects t o') w')
  /\ sent_calls (turn_effects t o')
     = [(sock_id (loop_socket t), loop_jid t,
         name (data (loop_socket t)) +:+ ": "
           +:+ template (messages (data (loop_socket t)) !! loop_i t))].
Proof.
  intros Hc. cbv zeta.
  destruct (on_connection_update_core s (mkUpdate (Some "close") ld) rm_ok o w)
    as (Ha & _ & _).
  split; [|split].
  - rewrite on_close. unfold handleSessionClosure, rm_recursive.
    destruct (isAuthError ld), rm_ok; reflexivity.
  - apply loop_turn_go. erewrite loop_condition_frame; [exact Hc | exact Ha].
  - apply sent_calls_turn.
Qed.

Lemma closure_does_not_stop_send_loop_witness :
  loop_turn loop_A Delivered
    (snd (on_connection_update socket_A (closed_with 401) true Delivered world_A_open))
  = (Normal (Some (next_turn loop_A)),
     with_trace (fun tr => tr ++ turn_effects loop_A Delivered)
       (snd (on_connection_update socket_A (closed_with 401) true Delivered world_A_open))).
Proof.
  exact (proj1 (proj2 (closure_does_not_stop_send_loop socket_A
                         (lastDisconnect (closed_with 401)) true Delivered Delivered
                         loop_A world_A_open world_A_open_condition))).
Defined.

(** X20: every ["open"] event on the socket of a registered session with
    messages starts a loop of its own from the first message; a second
    ["open"] while the first loop is waiting leaves two loops and sends the
    first message a second time. *)
Theorem each_open_starts_a_loop (k : nat) (s : Socket) (rm1 rm2 : bool)
    (o1 o2 : SendOutcome) (first : string) (others : list string) (w : World) :
  sockets w !! k = Some s ->
  JsMap.has (sessionId s) (activeSessions w) = true ->
  messages (data s) = first :: others ->
  let jid := targetJid_of (targetType (data s)) (targetNumber (data s)) in
  let call := (sock_id s, jid, name (data s) +:+ ": " +:+ first) in
  let w' := run [ConnectionUpdate k opened rm1 o1; ConnectionUpdate k opened rm2 o2] w in
  loops w' = loops w ++ [mkLoop s jid 1; mkLoop s jid 1]
  /\ sent_calls (trace w') = sent_calls (trace w) ++ [call; call].
Proof.
  intros Hk Hhas Hmsgs. cbv zeta.
  assert (Hc : forall w0, activeSessions w0 = activeSessions w -> loop_condition s w0 = true).
  { intros w0 Ha. unfold loop_condition. now rewrite Ha, Hhas, Hmsgs. }
  rewrite !run_cons. cbn [run fold_left]. cbn [exec]. rewrite Hk.
  rewrite (open_first_turn s rm1 o1 w (Hc w eq_refl)). cbn [snd sockets]. rewrite Hk.
  rewrite open_first_turn by (apply Hc; reflexivity).
  cbn [snd loops trace]. split.
  - now rewrite <- app_assoc.
  - rewrite <- !app_assoc, !sent_calls_app. cbn [sent_calls app].
    rewrite !sent_calls_turn. cbn [loop_socket loop_jid loop_i].
    rewrite Hmsgs. reflexivity.
Qed.

Lemma each_open_starts_a_loop_witness :
  loops (run [ConnectionUpdate 0 opened true Delivered;
              ConnectionUpdate 0 opened true Delivered] world_A)
  = loops world_A ++ [mkLoop socket_A "123@s.whatsapp.net" 1;
                      mkLoop socket_A "123@s.whatsapp.net" 1].
Proof.
  refine (proj1 (each_open_starts_a_loop 0 socket_A true true Delivered Delivered
                   "a" ["b"] world_A _ _ _)).
  - vm_compute. reflexivity.
  - vm_compute. reflexivity.
  - reflexivity.
Defined.

(** ** Instances on the scenarios *)

Lemma world_B_uploaded_sessions :
  forall id s, (id, s) ∈ activeSessions world_B_uploaded ->
    exists c, dataFs world_B_uploaded !! id ≫= creds_json = Some c /\ c <> "B".
Proof.
  intros id s Hin.
  assert (Hs : activeSessions world_B_uploaded = [("session_1", socket_A)])
    by (vm_compute; reflexivity).
  rewrite Hs in Hin. apply list_elem_of_singleton in Hin. injection Hin as -> ->.
  exists "A". split; [vm_compute; reflexivity | discriminate].
Qed.

Lemma world_B_uploaded_creds : uploads world_B_uploaded !! "uploads/credsB" = Some "B".
Proof. vm_compute. reflexivity. Qed.

Lemma world_B_uploaded_msgs : uploads world_B_uploaded !! "uploads/msgsB" = Some "hello".
Proof. vm_compute. reflexivity. Qed.

Lemma send_message_accepts_witness :
  timers (snd (send_message request_B 2 world_B_uploaded))
  = timers world_B_uploaded ++ [mkTimer 0 (session_id 2)].
Proof.
  exact (f_equal (fun r => timers (snd r))
           (send_message_accepts request_B 2 world_B_uploaded "uploads/credsB"
              "uploads/msgsB" "B" "hello" eq_refl eq_refl world_B_uploaded_creds
              world_B_uploaded_msgs world_B_uploaded_sessions)).
Defined.

Lemma send_message_answers_once_witness :
  fst (send_message request_B 2 world_B_uploaded) = Normal tt
  /\ activeSessions (snd (send_message request_B 2 world_B_uploaded))
     = activeSessions world_B_uploaded.
Proof.
  destruct (send_message_answers_once request_B 2 world_B_uploaded) as (H1 & H2 & _).
  split; [exact H1 | exact H2].
Defined.

Lemma send_message_spares_other_folders_witness :
  session_id 1 <> session_id 2
  /\ dataFs (snd (send_message request_B 2 world_B_uploaded)) !! session_id 1
     = dataFs world_B_uploaded !! session_id 1.
Proof.
  apply (send_message_spares_other_folders request_B 2 1 world_B_uploaded).
  discriminate.
Defined.

Lemma reachable_worlds_are_consistent_witness :
  (sock_id socket_A < length (sockets world_A))%nat.
Proof.
  destruct (reachable_worlds_are_consistent
              [Upload "uploads/credsA" "A";
               Upload "uploads/msgsA" ("a" +:+ String LF "b");
               PostSendMessage request_A 1;
               FireTimer 0 true]) as (_ & _ & H & _).
  apply (H "session_1" socket_A). vm_compute. reflexivity.
Defined.

Lemma get_sessions_lists_registered_once_witness :
  exists ids,
    exec GetSessions world_A
    = with_trace (fun tr => tr ++ [Respond 200 (Ids ids)]) world_A
    /\ "session_1" ∈ ids.
Proof.
  destruct (get_sessions_lists_registered_once
              [Upload "uploads/credsA" "A";
               Upload "uploads/msgsA" ("a" +:+ String LF "b");
               PostSendMessage request_A 1;
               FireTimer 0 true]) as (ids & Hexec & _ & Hiff).
  exists ids. split; [exact Hexec|]. apply Hiff. vm_compute. reflexivity.
Defined.


Lemma accepted_session_sends_first_message_witness :
  sent_calls (trace (run [PostSendMessage request_B 2;
                          FireTimer 0 true;
                          ConnectionUpdate 1 opened true Delivered] world_B_uploaded))
  = sent_calls (trace world_B_uploaded) ++ [(1%nat, "456@g.us", "bea: hello")].
Proof.
  destruct (accepted_session_sends_first_message request_B 2 world_B_uploaded
              "uploads/credsB" "uploads/msgsB" "B" "hello" "hello" [] true
              eq_refl eq_refl world_B_uploaded_creds world_B_uploaded_msgs
              world_B_uploaded_sessions eq_refl) as (_ & Htr & _).
  cbv zeta in Htr.
  change (length (timers world_B_uploaded)) with 0%nat in Htr.
  change (length (sockets world_B_uploaded)) with 1%nat in Htr.
  rewrite Htr, sent_calls_app. reflexivity.
Defined.

Lemma duplicate_check_misses_pending_session_witness :
  responses (trace (run [PostSendMessage request_B 2; PostSendMessage request_B 3]
                      world_B_uploaded))
  = responses (trace world_B_uploaded) ++ [200; 200].
Proof.
  refine (proj1 (duplicate_check_misses_pending_session request_B request_B 2 3
                   world_B_uploaded "uploads/credsB" "uploads/msgsB" "uploads/msgsB"
                   "B" "hello" "hello" eq_refl eq_refl eq_refl eq_refl
                   world_B_uploaded_creds world_B_uploaded_msgs world_B_uploaded_msgs
                   world_B_uploaded_sessions _ _)).
  - vm_compute. reflexivity.
  - discriminate.
Defined.

Lemma stop_spares_other_sessions_witness :
  JsMap.get "session_2" (activeSessions (snd (stop_session "session_1" true world_AB)))
  = JsMap.get "session_2" (activeSessions world_AB).
Proof.
  refine (proj1 (stop_spares_other_sessions world_AB "session_1" "session_2" true _)).
  discriminate.
Defined.
